(** * Checkmk GUI views, logwatch pattern editor and shared type definitions

  A shallow embedding of the parts of

    - [cmk/utils/type_defs.py]   ([OIDSpec], [SNMPHostConfig]),
    - [cmk/gui/views.py]         ([get_limit], [get_livestatus_filter_headers],
                                  [_do_table_join], [_sort_data], [show_view],
                                  [core_command], [do_actions]),
    - [cmk/gui/wato/pages/pattern_editor.py] ([ModePatternEditor._show_patterns])

  together with the properties established about them.  Python values are
  dynamically typed; ints are unbounded and are modelled by [Z], strings by
  [string], dicts by [gmap], exceptions by an explicit result type. *)

From Stdlib Require Import ZArith Lia Ascii String Sorting.Sorted.
From stdpp Require Import base option list gmap strings pretty sorting.

#[local] Set Warnings "-register-all".
#[local] Open Scope Z_scope.

(** ** Python basics shared by all modules *)

Module Py.

(** The exception classes the modelled code raises or handles.  Messages
    are not modelled, only the class (and the variable name an
    [MKUserError] is attached to). *)
Inductive Exc : Type :=
  | TypeError
  | ValueError
  | KeyError
  | MKUserError (varname : option string)
  | OtherError.

(** Result of a call that either returns or raises. *)
Inductive result (A : Type) : Type :=
  | Ok (a : A)
  | Raise (e : Exc).
#[global] Arguments Ok {A} a.
#[global] Arguments Raise {A} e.

Definition bind {A B} (m : result A) (k : A -> result B) : result B :=
  match m with
  | Ok a => k a
  | Raise e => Raise e
  end.

#[global] Instance Exc_eq_dec : EqDecision Exc.
Proof. solve_decision. Defined.

#[global] Instance result_eq_dec {A} `{EqDecision A} : EqDecision (result A).
Proof. solve_decision. Defined.

#[global] Instance result_ret : MRet result := fun A a => Ok a.
#[global] Instance result_bind : MBind result := fun A B k m => bind m k.

Definition of_key {A} (o : option A) : result A :=
  match o with
  | Some a => Ok a
  | None => Raise KeyError
  end.

(** Scalar values found in rows, request variables and configuration. *)
Inductive Value : Type :=
  | VNone
  | VBool (b : bool)
  | VInt (z : Z)
  | VStr (s : string)
  | VList (l : list string).

#[global] Instance Value_eq_dec : EqDecision Value.
Proof. solve_decision. Defined.

#[global] Instance Value_countable : Countable Value.
Proof.
  refine (inj_countable'
    (fun v => match v with
              | VNone => inl (inl (inl (inl tt)))
              | VBool b => inl (inl (inl (inr b)))
              | VInt z => inl (inl (inr z))
              | VStr s => inl (inr s)
              | VList l => inr l
              end)
    (fun x => match x with
              | inl (inl (inl (inl _))) => VNone
              | inl (inl (inl (inr b))) => VBool b
              | inl (inl (inr z)) => VInt z
              | inl (inr s) => VStr s
              | inr l => VList l
              end) _).
  by intros [].
Defined.

(** Characters of a string, [str.startswith], [str.endswith]. *)
Definition chars (s : string) : list Ascii.ascii := String.list_ascii_of_string s.

Definition startswith (s pre : string) : bool :=
  bool_decide (chars pre `prefix_of` chars s).

Definition endswith (s suf : string) : bool :=
  bool_decide (chars suf `suffix_of` chars s).

(** Truthiness of a string: the empty string is false. *)
Definition str_truthy (s : string) : bool :=
  match s with
  | EmptyString => false
  | String _ _ => true
  end.

End Py.


(** ** cmk/utils/type_defs.py *)

Module TypeDefs.
Import Py.

(** The classes an OID spec can be an instance of: [OIDSpec] itself and
    its subclasses, which inherit [__init__], [validate] and [__str__].
    A class is identified by its name. *)
Definition ClassName := string.

Record OIDSpec : Type := mkOIDSpec {
  oid_class : ClassName;     (* [self.__class__] *)
  _value : string;           (* [self._value] *)
}.

(** An arbitrary Python object as it may be handed to [validate] or be
    the right operand of [+]. *)
Inductive PyObj : Type :=
  | ObjNone
  | ObjInt (z : Z)
  | ObjStr (s : string)
  | ObjOID (o : OIDSpec).

(** [string.digits] and [OIDSpec.VALID_CHARACTERS]. *)
Definition digits : string := "0123456789".
Definition VALID_CHARACTERS : string := String.append "." digits.

(** [OIDSpec.validate] *)
Definition validate (value : PyObj) : result unit :=
  match value with
  | ObjStr value =>
      if negb (str_truthy value) then Raise ValueError
      else
        let invalid := String.string_of_list_ascii
          (filter (fun c => c ∉ chars VALID_CHARACTERS) (chars value)) in
        if str_truthy invalid then Raise ValueError
        else if endswith value "." then Raise ValueError
        else Ok tt
  | _ => Raise TypeError
  end.

(** [cls(value)], that is [OIDSpec.__init__] run for a fresh instance of
    class [cls]. *)
Definition OIDSpec_init (cls : ClassName) (value : PyObj) : result OIDSpec :=
  _ ← validate value;
  match value with
  | ObjStr s => Ok (mkOIDSpec cls s)
  | _ => Raise TypeError
  end.

(** [OIDSpec.__str__] *)
Definition OIDSpec_str (self : OIDSpec) : string := _value self.

(** [OIDSpec.__add__] *)
Definition OIDSpec_add (self : OIDSpec) (right' : PyObj) : result OIDSpec :=
  match right' with
  | ObjOID right' =>
      if negb (startswith (_value self) ".") || startswith (_value right') "."
      then Raise ValueError
      else OIDSpec_init (oid_class right')
             (ObjStr (String.append (OIDSpec_str self)
                        (String.append "." (OIDSpec_str right'))))
  | _ => Raise TypeError
  end.

(** [SNMPHostConfig]: a named tuple of fifteen fields.  The field types
    of a [NamedTuple] are annotations only, so every field holds a
    dynamically typed value. *)
Record SNMPHostConfig : Type := mkSNMPHostConfig {
  is_ipv6_primary : Value;
  hostname : Value;
  ipaddress : Value;
  credentials : Value;
  port : Value;
  is_bulkwalk_host : Value;
  is_snmpv2or3_without_bulkwalk_host : Value;
  bulk_walk_size_of : Value;
  timing : Value;
  oid_range_limits : Value;
  snmpv3_contexts : Value;
  character_encoding : Value;
  is_usewalk_host : Value;
  is_inline_snmp_host : Value;
  record_stats : Value;
}.

(** [SNMPHostConfig._fields] *)
Definition _fields : list string :=
  ["is_ipv6_primary"; "hostname"; "ipaddress"; "credentials"; "port";
   "is_bulkwalk_host"; "is_snmpv2or3_without_bulkwalk_host";
   "bulk_walk_size_of"; "timing"; "oid_range_limits"; "snmpv3_contexts";
   "character_encoding"; "is_usewalk_host"; "is_inline_snmp_host";
   "record_stats"]%string.

(** [self._asdict()]: a fresh dict from field names to values. *)
Definition _asdict (self : SNMPHostConfig) : gmap string Value :=
  list_to_map
    [("is_ipv6_primary", is_ipv6_primary self);
     ("hostname", hostname self);
     ("ipaddress", ipaddress self);
     ("credentials", credentials self);
     ("port", port self);
     ("is_bulkwalk_host", is_bulkwalk_host self);
     ("is_snmpv2or3_without_bulkwalk_host", is_snmpv2or3_without_bulkwalk_host self);
     ("bulk_walk_size_of", bulk_walk_size_of self);
     ("timing", timing self);
     ("oid_range_limits", oid_range_limits self);
     ("snmpv3_contexts", snmpv3_contexts self);
     ("character_encoding", character_encoding self);
     ("is_usewalk_host", is_usewalk_host self);
     ("is_inline_snmp_host", is_inline_snmp_host self);
     ("record_stats", record_stats self)]%string.

(** A keyword argument the constructor requires: missing is a
    [TypeError]. *)
Definition required (cfg : gmap string Value) (name : string) : result Value :=
  match cfg !! name with
  | Some v => Ok v
  | None => Raise TypeError
  end.

(** The constructor called with the keyword arguments [cfg]: every field
    must be given, and a keyword that is not a field is a [TypeError]. *)
Definition SNMPHostConfig_new (cfg : gmap string Value) : result SNMPHostConfig :=
  if bool_decide (dom cfg ⊆ list_to_set _fields) then
    f1 ← required cfg "is_ipv6_primary";
    f2 ← required cfg "hostname";
    f3 ← required cfg "ipaddress";
    f4 ← required cfg "credentials";
    f5 ← required cfg "port";
    f6 ← required cfg "is_bulkwalk_host";
    f7 ← required cfg "is_snmpv2or3_without_bulkwalk_host";
    f8 ← required cfg "bulk_walk_size_of";
    f9 ← required cfg "timing";
    f10 ← required cfg "oid_range_limits";
    f11 ← required cfg "snmpv3_contexts";
    f12 ← required cfg "character_encoding";
    f13 ← required cfg "is_usewalk_host";
    f14 ← required cfg "is_inline_snmp_host";
    f15 ← required cfg "record_stats";
    Ok (mkSNMPHostConfig f1 f2 f3 f4 f5 f6 f7 f8 f9 f10 f11 f12 f13 f14 f15)
  else Raise TypeError.

(** [dict.update] with keyword arguments: the given keys are overwritten. *)
Definition dict_update (cfg kwargs : gmap string Value) : gmap string Value :=
  kwargs ∪ cfg.

(** [SNMPHostConfig.update] *)
Definition update (self : SNMPHostConfig) (kwargs : gmap string Value)
    : result SNMPHostConfig :=
  let cfg := _asdict self in
  let cfg := dict_update cfg kwargs in
  SNMPHostConfig_new cfg.

(** What passing [validate] means for a string. *)
Definition well_formed_oid (s : string) : Prop :=
  s <> ""%string /\
  Forall (fun c => c ∈ chars ".0123456789") (chars s) /\
  endswith s "." = false.

(** An OID spec that came out of the constructor. *)
Definition constructed (o : OIDSpec) : Prop :=
  exists v, OIDSpec_init (oid_class o) v = Ok o.

End TypeDefs.

(** ** cmk/gui/views.py *)

Module Views.
Import Py.

(** *** Rows, requests, configuration *)

(** A row is a dict from column names to values.  The artificial column
    ["JOIN"], when present, holds a dict from join keys to the joined rows
    (rows of the slave table). *)
Inductive Row : Type := mkRow {
  columns : gmap string Value;
  JOIN : option (gmap Value Row);
}.

(** [row[name]]: a missing column is a [KeyError]. *)
Definition row_item (row : Row) (name : string) : result Value :=
  of_key (columns row !! name).

(** [row.get(name)]: a missing column is [None]. *)
Definition row_get (row : Row) (name : string) : Value :=
  default VNone (columns row !! name).

(** [row["JOIN"]] *)
Definition row_JOIN (row : Row) : result (gmap Value Row) := of_key (JOIN row).

(** [row["JOIN"] = joininfo] *)
Definition row_set_JOIN (row : Row) (joininfo : gmap Value Row) : Row :=
  mkRow (columns row) (Some joininfo).

(** The variables of the HTTP request and [html.request.var(name, deflt)]. *)
Definition Request := gmap string string.

Definition request_var (request : Request) (name : string) (deflt : option string)
    : option string :=
  match request !! name with
  | Some v => Some v
  | None => deflt
  end.

(** The parts of [config] and [config.user] the modelled code reads. *)
Record Config : Type := mkConfig {
  soft_query_limit : Z;
  hard_query_limit : Z;
  may : string -> bool;          (* [config.user.may] *)
}.

(** *** [get_limit] *)

Definition get_limit (request : Request) (config : Config) : option Z :=
  let limitvar := request_var request "limit" (Some "soft"%string) in
  if bool_decide (limitvar = Some "hard"%string) && may config "general.ignore_soft_limit"
  then Some (hard_query_limit config)
  else if bool_decide (limitvar = Some "none"%string) && may config "general.ignore_hard_limit"
  then None
  else Some (soft_query_limit config).

(** *** Filters and the Livestatus filter headers *)

(** A filter plugin, seen under the current request: [value()] and
    [validate_value], [filter] for the Livestatus header and
    [filter_table] for filtering fetched rows. *)
Record Filter : Type := mkFilter {
  filter_ident : string;
  value : result (gmap string string);
  validate_value : gmap string string -> result unit;
  livestatus_header : string -> result string;   (* the method [filter] *)
  filter_table : list Row -> list Row;
  need_inventory : bool;
}.

(** The body of the [try] block of [get_livestatus_filter_headers]. *)
Definition filter_header (datasource_ident : string) (filt : Filter) : result string :=
  v ← value filt;
  _ ← validate_value filt v;
  livestatus_header filt datasource_ident.

(** [get_livestatus_filter_headers]: the headers built so far and the
    user errors registered with [html.add_user_error] are threaded
    through the loop. *)
Fixpoint filter_headers_loop (datasource_ident : string) (filters : list Filter)
    (filterheaders : string) (user_errors : list (option string))
    : result (string * list (option string)) :=
  match filters with
  | [] => Ok (filterheaders, user_errors)
  | filt :: filters =>
      match filter_header datasource_ident filt with
      | Ok header =>
          filter_headers_loop datasource_ident filters
            (String.append filterheaders header) user_errors
      | Raise (MKUserError varname) =>
          filter_headers_loop datasource_ident filters
            filterheaders (user_errors ++ [varname])
      | Raise e => Raise e
      end
  end.

Definition get_livestatus_filter_headers (datasource_ident : string)
    (all_active_filters : list Filter) : result (string * list (option string)) :=
  filter_headers_loop datasource_ident all_active_filters "" [].

(** *** Sorting *)

(** A sorter plugin. *)
Record Sorter : Type := mkSorter {
  cmp : Row -> Row -> Z;
  sorter_columns : list string;
  sorter_load_inv : bool;
}.

Record SorterEntry : Type := mkSorterEntry {
  sorter : Sorter;
  negate : bool;
  join_key : option string;
}.

(** Truthiness of [entry.join_key]: [None] and the empty string are
    false. *)
Definition join_key_truthy (entry : SorterEntry) : option string :=
  match join_key entry with
  | Some k => if str_truthy k then Some k else None
  | None => None
  end.

(** [safe_compare], local to [_sort_data]. *)
Definition safe_compare (compfunc : Row -> Row -> Z) (row1 row2 : option Row) : Z :=
  match row1, row2 with
  | None, None => 0
  | None, Some _ => -1
  | Some _, None => 1
  | Some row1, Some row2 => compfunc row1 row2
  end.

(** The value [c] computed for one sorter entry in the loop of
    [multisort]. *)
Definition entry_compare (entry : SorterEntry) (e1 e2 : Row) : result Z :=
  let neg := if negate entry then -1 else 1 in
  match join_key_truthy entry with
  | Some k =>
      j1 ← row_JOIN e1;
      j2 ← row_JOIN e2;
      Ok (neg * safe_compare (cmp (sorter entry)) (j1 !! VStr k) (j2 !! VStr k))
  | None => Ok (neg * cmp (sorter entry) e1 e2)
  end.

(** [multisort], local to [_sort_data]. *)
Fixpoint multisort (sorters : list SorterEntry) (e1 e2 : Row) : result Z :=
  match sorters with
  | [] => Ok 0
  | entry :: sorters =>
      c ← entry_compare entry e1 e2;
      if bool_decide (c <> 0) then Ok c else multisort sorters e1 e2
  end.

(** [functools.cmp_to_key(mycmp)] wraps every element in a key object
    whose [__lt__] is [mycmp(a, b) < 0]; [list.sort] compares keys with
    [<] only. *)
Definition cmp_to_key_lt {A} (mycmp : A -> A -> result Z) (a b : A) : result bool :=
  c ← mycmp a b; Ok (bool_decide (c < 0)).

(** [list.sort]: the built-in sorts stably and compares elements with [<]
    only.  It is modelled by insertion sort: the elements are taken in list
    order and each one is put into the sorted prefix before the first
    element it is less than.  For a consistent comparison every stable sort
    returns the same list ([stable_sort_agrees] below).  A comparison that
    raises aborts the sort. *)
Fixpoint sort_insert {A} (lt : A -> A -> result bool) (x : A) (l : list A)
    : result (list A) :=
  match l with
  | [] => Ok [x]
  | y :: l' =>
      b ← lt x y;
      if b : bool then Ok (x :: y :: l')
      else l'' ← sort_insert lt x l'; Ok (y :: l'')
  end.

Fixpoint sort_loop {A} (lt : A -> A -> result bool) (todo sorted : list A)
    : result (list A) :=
  match todo with
  | [] => Ok sorted
  | x :: todo => sorted' ← sort_insert lt x sorted; sort_loop lt todo sorted'
  end.

Definition list_sort {A} (lt : A -> A -> result bool) (l : list A) : result (list A) :=
  sort_loop lt l [].

(** [_sort_data]: the list is sorted in place; the model returns the new
    content of [data]. *)
Definition _sort_data (data : list Row) (sorters : list SorterEntry) : result (list Row) :=
  match sorters with
  | [] => Ok data
  | _ :: _ => list_sort (cmp_to_key_lt (multisort sorters)) data
  end.

(** *** Cells, data sources and views *)

(** A cell of the view, that is a painter in use.  Join cells are the
    cells of class [JoinCell]. *)
Record Cell : Type := mkCell {
  is_join_cell : bool;
  needed_columns : gset string;
  livestatus_filter : string -> string;
  painter_name : string;
  painter_parameters : Value;
  painter_load_inv : bool;
  tooltip_painter_name : option string;   (* [None]: [has_tooltip()] is false *)
}.

(** [table.query(view, columns, headers, only_sites, limit,
    all_active_filters)] depends on the monitoring backend; the view and
    the filter objects are not inspected by the model. *)
Definition TableQuery : Type :=
  list string -> string -> option (list string) -> option Z -> result (list Row).

Record DataSource : Type := mkDataSource {
  ident : string;
  infos : list string;
  join : option (string * string);   (* (join table, join master column) *)
  ds_join_key : string;              (* [join_key] of a slave data source *)
  keys : list string;
  id_keys : list string;
  ignore_limit : bool;
  table_query : TableQuery;
}.

Record ViewSpec : Type := mkViewSpec {
  spec_name : option string;
  add_headers : option string;      (* [spec.get("add_headers", "")] *)
  mustsearch : bool;                (* truthiness of [spec.get("mustsearch")] *)
  layout : option string;           (* ["layout" in spec], [spec["layout"]] *)
}.

Record View : Type := mkView {
  spec : ViewSpec;
  datasource : DataSource;
  row_cells : list Cell;
  group_cells : list Cell;
  sorters : list SorterEntry;
  only_sites : option (list string);
  _row_limit : option Z;
}.

Definition join_cells (view : View) : list Cell :=
  filter (fun x => is_join_cell x = true) (row_cells view).

Definition row_limit (view : View) : option Z :=
  if ignore_limit (datasource view) then None else _row_limit view.

Definition columns_of_cells (cells : list Cell) : gset string :=
  foldl (fun columns cell => columns ∪ needed_columns cell) ∅ cells.

Definition sorter_columns_of (sorters : list SorterEntry) (columns : gset string)
    : gset string :=
  foldl (fun columns entry => columns ∪ list_to_set (sorter_columns (sorter entry)))
    columns sorters.

Definition _get_needed_join_columns (join_cells : list Cell) (sorters : list SorterEntry)
    : list string :=
  let join_columns := columns_of_cells join_cells in
  let join_columns := sorter_columns_of sorters join_columns in
  let join_columns := join_columns ∖ {[ "site"%string ]} in
  elements join_columns.

(** *** [_do_table_join] *)

(** A line feed. *)
Definition LF : string := String (Ascii.ascii_of_nat 10) EmptyString.

(** The local variables of the first loop of [_do_table_join].  Both
    [current_entry] and the values of [per_master_entry] are references to
    dict objects; [dicts] is the store these references point into. *)
Record JoinState : Type := mkJoinState {
  per_master_entry : gmap (Value * Value) nat;
  current_key : option (Value * Value);
  current_entry : option nat;
  dicts : list (gmap Value Row);
}.

Definition join_state0 : JoinState := mkJoinState ∅ None None [].

Fixpoint join_collect (join_master_column join_slave_column : string)
    (rows : list Row) (st : JoinState) : result JoinState :=
  match rows with
  | [] => Ok st
  | row :: rows =>
      site ← row_item row "site";
      master ← row_item row join_master_column;
      let master_key := (site, master) in
      let st :=
        if bool_decide (Some master_key <> current_key st) then
          let fresh_dict := length (dicts st) in
          mkJoinState (<[master_key := fresh_dict]> (per_master_entry st))
            (Some master_key) (Some fresh_dict) (dicts st ++ [∅])
        else st in
      match current_entry st with
      | None => Raise OtherError
      | Some entry =>
          slave ← row_item row join_slave_column;
          join_collect join_master_column join_slave_column rows
            (mkJoinState (per_master_entry st) (current_key st) (current_entry st)
               (alter (fun d => <[slave := row]> d) entry (dicts st)))
      end
  end.

(** The second loop: the join info is stored into the master rows. *)
Fixpoint join_attach (join_master_column : string) (st : JoinState)
    (master_rows : list Row) : result (list Row) :=
  match master_rows with
  | [] => Ok []
  | row :: master_rows =>
      site ← row_item row "site";
      master ← row_item row join_master_column;
      let key := (site, master) in
      let joininfo :=
        match per_master_entry st !! key with
        | Some entry => default ∅ (dicts st !! entry)
        | None => ∅
        end in
      rest ← join_attach join_master_column st master_rows;
      Ok (row_set_JOIN row joininfo :: rest)
  end.

(** The headers of the join query. *)
Definition join_query_headers (master_filters : string) (join_cells : list Cell)
    (join_slave_column : string) : string :=
  let join_filters := map (fun cell => livestatus_filter cell join_slave_column) join_cells in
  let join_filters :=
    join_filters ++ [String.append "Or: " (pretty (length join_filters))] in
  String.append master_filters (String.append (String.concat LF join_filters) LF).

(** The query of [_do_table_join] to the slave table. *)
Definition join_query (view : View) (slave_ds : DataSource)
    (join_master_column master_filters : string) (sorters : list SorterEntry)
    : result (list Row) :=
  let join_slave_column := ds_join_key slave_ds in
  let join_cells := join_cells view in
  let join_columns := _get_needed_join_columns join_cells sorters in
  let headers := join_query_headers master_filters join_cells join_slave_column in
  table_query slave_ds
    (elements (list_to_set (C := gset string)
       ([join_master_column; join_slave_column] ++ join_columns)))
    headers (only_sites view) None.

(** [_do_table_join]: the master rows are changed in place; the model
    returns their new content. *)
Definition _do_table_join (data_source_registry : gmap string DataSource)
    (view : View) (master_rows : list Row) (master_filters : string)
    (sorters : list SorterEntry) : result (list Row) :=
  match join (datasource view) with
  | None => Raise OtherError
  | Some (join_table, join_master_column) =>
      slave_ds ← of_key (data_source_registry !! join_table);
      let join_slave_column := ds_join_key slave_ds in
      rows ← join_query view slave_ds join_master_column master_filters sorters;
      st ← join_collect join_master_column join_slave_column rows join_state0;
      join_attach join_master_column st master_rows
  end.

(** *** [show_view] *)

Record Layout : Type := mkLayout {
  layout_name : string;
  has_individual_csv_export : bool;
}.

(** What [show_view] reads from its surroundings: the request, the output
    format, the display options, the edition, the plugin registries, the
    inventory loader and the SLA processor. *)
Record Env : Type := mkEnv {
  request : Request;
  output_format : string;
  display_options_B : bool;
  is_raw_edition : bool;
  data_source_registry : gmap string DataSource;
  layout_registry : gmap string Layout;
  load_filtered_and_merged_tree : Row -> option Value;   (* [None]: the load fails *)
  add_sla_data_to_rows : list Value -> list Row -> list Row;
}.

(** How [show_view] ends. *)
Inductive Outcome : Type :=
  | AvailabilityPage (filterheaders : string)
  | BIAvailability (rows : list Row)
  | Count (n : nat)
  | CsvExport (layout : Layout) (rows : list Row)
  | Rendered (rows : list Row) (layout : option Layout) (unfiltered_amount_of_rows : nat).

Definition mode_is_availability (env : Env) : bool :=
  bool_decide (request_var (request env) "mode" None = Some "availability"%string).

Definition _get_needed_regular_columns (env : Env) (cells : list Cell)
    (sorters : list SorterEntry) (datasource : DataSource) : list string :=
  if mode_is_availability env && bool_decide ("aggr"%string ∈ infos datasource)
  then ["aggr_tree"; "aggr_name"; "aggr_group"]%string
  else
    let columns := columns_of_cells cells in
    let columns := sorter_columns_of sorters columns in
    let columns := columns ∪ list_to_set (keys datasource) in
    let columns := columns ∪ list_to_set (id_keys datasource) in
    let columns := columns ∖ {[ "site"%string ]} in
    let columns :=
      if display_options_B env
         && bool_decide (output_format env = "html"%string)
         && bool_decide ("host"%string ∈ infos datasource)
      then columns ∪ {[ "host_labels"%string ]} else columns in
    elements columns.

Definition is_inventory_data_needed (group_cells cells : list Cell)
    (sorters : list SorterEntry) (all_active_filters : list Filter) : bool :=
  existsb (fun cell => match tooltip_painter_name cell with
                       | Some name => startswith name "inv_"
                       | None => false
                       end) cells
  || existsb (fun entry => sorter_load_inv (sorter entry)) sorters
  || existsb painter_load_inv (group_cells ++ cells)
  || existsb need_inventory all_active_filters.

(** An empty [StructuredDataTree]. *)
Definition empty_tree : Value := VList [].

Definition attach_inventory (env : Env) (row : Row) : Row :=
  match columns row !! "host_name"%string with
  | None => row
  | Some _ =>
      let tree := default empty_tree (load_filtered_and_merged_tree env row) in
      mkRow (<["host_inventory"%string := tree]> (columns row)) (JOIN row)
  end.

Definition attach_sla (env : Env) (cells : list Cell) (rows : list Row) : list Row :=
  if is_raw_edition env then rows
  else
    let sla_params :=
      map painter_parameters
        (filter (fun cell => painter_name cell ∈ ["sla_specific"; "sla_fixed"]%string) cells) in
    match sla_params with
    | [] => rows
    | _ :: _ => add_sla_data_to_rows env sla_params rows
    end.

(** The loop applying every active filter's [filter_table]. *)
Definition apply_filter_tables (all_active_filters : list Filter) (rows : list Row)
    : list Row :=
  foldl (fun rows filter_ => filter_table filter_ rows) rows all_active_filters.

(** The rows as they are when the [if] that fetches data is left: fetched,
    joined, enriched and sorted, or the empty list when nothing is
    fetched. *)
Definition fetch_and_sort (env : Env) (view : View) (only_count : bool)
    (all_active_filters : list Filter) (filterheaders headers : string)
    (sorters : list SorterEntry) (columns : list string) : result (list Row) :=
  if only_count || negb (mustsearch (spec view))
     || bool_decide (request_var (request env) "filled_in" None ∈
          [Some "filter"; Some "actions"; Some "confirm"; Some "painteroptions"]%string)
  then
    rows ← table_query (datasource view) columns headers (only_sites view) (row_limit view);
    rows ← (match join_cells view with
            | [] => Ok rows
            | _ :: _ => _do_table_join (data_source_registry env) view rows
                          filterheaders sorters
            end);
    let rows :=
      if is_inventory_data_needed (group_cells view) (row_cells view) sorters
           all_active_filters
      then map (attach_inventory env) rows else rows in
    let rows := attach_sla env (row_cells view) rows in
    _sort_data rows sorters
  else Ok [].

(** The [headers] of [show_view], handed to the data query of the view. *)
Definition query_headers (view : View) (filterheaders : string) : string :=
  String.append filterheaders (default ""%string (add_headers (spec view))).

(** [show_view] from the point where the active filters of the view are
    known.  Output that does not influence the result (browser reload,
    alarm sounds, user errors) is left out. *)
Definition show_view (env : Env) (view : View) (only_count : bool)
    (all_active_filters : list Filter) : result Outcome :=
  '(filterheaders, _) ← get_livestatus_filter_headers (ident (datasource view))
                           all_active_filters;
  if mode_is_availability env
     && (negb (bool_decide ("aggr"%string ∈ infos (datasource view)))
         || match request_var (request env) "timeline_aggr" None with
            | Some v => str_truthy v
            | None => false
            end)
  then Ok (AvailabilityPage filterheaders)
  else
    let headers := query_headers view filterheaders in
    let sorters := if only_count then [] else sorters view in
    let group_cells := group_cells view in
    let cells := row_cells view in
    let columns := _get_needed_regular_columns env (group_cells ++ cells) sorters
                     (datasource view) in
    rows ← fetch_and_sort env view only_count all_active_filters filterheaders headers
             sorters columns;
    let unfiltered_amount_of_rows := length rows in
    let rows := apply_filter_tables all_active_filters rows in
    if mode_is_availability env then Ok (BIAvailability rows)
    else if only_count then Ok (Count (length rows))
    else
      layout ← (match layout (spec view) with
                | Some name => l ← of_key (layout_registry env !! name); Ok (Some l)
                | None => Ok None
                end);
      if negb (bool_decide (output_format env = "html"%string)) then
        match layout with
        | Some l =>
            if has_individual_csv_export l then Ok (CsvExport l rows)
            else
              match layout_registry env !! output_format env with
              | None => Raise (MKUserError (Some "output_format"%string))
              | Some l' => Ok (Rendered rows (Some l') unfiltered_amount_of_rows)
              end
        | None =>
            match layout_registry env !! output_format env with
            | None => Raise (MKUserError (Some "output_format"%string))
            | Some l' => Ok (Rendered rows (Some l') unfiltered_amount_of_rows)
            end
        end
      else Ok (Rendered rows layout unfiltered_amount_of_rows).

(** *** Commands: [core_command] and [do_actions] *)

(** One core command as a command plugin returns it: a command line, or a
    pair of a site and a command line. *)
Inductive CommandEntry : Type :=
  | CmdStr (command : string)
  | CmdTuple (site : Value) (command : string).

#[global] Instance CommandEntry_eq_dec : EqDecision CommandEntry.
Proof. solve_decision. Defined.

#[global] Instance CommandEntry_countable : Countable CommandEntry.
Proof.
  refine (inj_countable'
    (fun e => match e with
              | CmdStr c => inl c
              | CmdTuple s c => inr (s, c)
              end)
    (fun x => match x with
              | inl c => CmdStr c
              | inr (s, c) => CmdTuple s c
              end) _).
  by intros [].
Defined.

(** The first component of an action result: one command or a list. *)
Inductive Commands : Type :=
  | OneCommand (entry : CommandEntry)
  | CommandList (entries : list CommandEntry).

(** A command plugin.  [action cmdtag spec row row_nr total_rows] is
    [None] when the command does not detect itself in the request.  The
    executor is identified by its name. *)
Record Command : Type := mkCommand {
  permission_name : string;
  action : string -> Value -> Row -> nat -> nat -> option (Commands * string);
  executor : string;
}.

(** [str(v)] as used by the ["%s"] conversion. *)
Definition py_str (v : Value) : string :=
  match v with
  | VNone => "None"
  | VBool true => "True"
  | VBool false => "False"
  | VInt z => pretty z
  | VStr s => s
  | VList l =>
      String.append "["
        (String.append
           (String.concat ", " (map (fun s => String.append "'" (String.append s "'")) l))
           "]")
  end.

Definition value_truthy (v : Value) : bool :=
  match v with
  | VNone => false
  | VBool b => b
  | VInt z => bool_decide (z <> 0)
  | VStr s => str_truthy s
  | VList l => match l with [] => false | _ :: _ => true end
  end.

(** The loop of [core_command] over the command registry: the first
    permitted command whose action answers decides. *)
Fixpoint first_action (config : Config) (command_registry : list Command)
    (cmdtag : string) (spec : Value) (row : Row) (row_nr total_rows : nat)
    : option (Commands * string * string) :=
  match command_registry with
  | [] => None
  | cmd :: command_registry =>
      if may config (permission_name cmd) then
        match action cmd cmdtag spec row row_nr total_rows with
        | Some (commands, title) => Some (commands, title, executor cmd)
        | None => first_action config command_registry cmdtag spec row row_nr total_rows
        end
      else first_action config command_registry cmdtag spec row row_nr total_rows
  end.

Definition core_command (config : Config) (command_registry : list Command)
    (what : string) (row : Row) (row_nr total_rows : nat)
    : result (list CommandEntry * string * string) :=
  let host := row_get row "host_name" in
  let descr := row_get row "service_description" in
  let '(spec, cmdtag) :=
    if bool_decide (what = "host"%string) then (host, "HOST"%string)
    else if bool_decide (what = "service"%string) then
      (VStr (String.append (py_str host) (String.append ";" (py_str descr))), "SVC"%string)
    else
      (row_get row (String.append what "_id"),
       if value_truthy descr then "SVC"%string else "HOST"%string) in
  match first_action config command_registry cmdtag spec row row_nr total_rows with
  | None => Raise (MKUserError None)
  | Some (commands, title, executor) =>
      if negb (str_truthy title) then Raise (MKUserError None)
      else
        let commands :=
          match commands with
          | CommandList l => l
          | OneCommand c => [c]
          end in
        Ok (commands, title, executor)
  end.

(** A call [executor(command, site)]. *)
Record Execution : Type := mkExecution {
  exec_executor : string;
  exec_command : string;
  exec_site : Value;
}.

(** The variables the loops of [do_actions] change. *)
Record ActionState : Type := mkActionState {
  count : nat;
  already_executed : gset (Value * CommandEntry);
  command : option string;
  executed : list Execution;       (* the executor calls made so far, in order *)
}.

(** The inner loop, over the core commands of one row. *)
Fixpoint run_commands (row : Row) (executor : string) (core_commands : list CommandEntry)
    (st : ActionState) : ActionState :=
  match core_commands with
  | [] => st
  | command_entry :: core_commands =>
      let site := row_get row "site" in
      let st :=
        if bool_decide ((site, command_entry) ∉ already_executed st) then
          let '(site, command) :=
            match command_entry with
            | CmdTuple site command => (site, command)
            | CmdStr command => (site, command)
            end in
          mkActionState (S (count st))
            ({[ (site, command_entry) ]} ∪ already_executed st)
            (Some command)
            (executed st ++ [mkExecution executor command site])
        else st in
      run_commands row executor core_commands st
  end.

(** The outer loop, over the enumerated action rows. *)
Fixpoint run_rows (config : Config) (command_registry : list Command) (what : string)
    (total_rows : nat) (nr : nat) (action_rows : list Row) (st : ActionState)
    : result ActionState :=
  match action_rows with
  | [] => Ok st
  | row :: action_rows =>
      '(core_commands, _, executor) ←
        core_command config command_registry what row nr total_rows;
      run_rows config command_registry what total_rows (S nr) action_rows
        (run_commands row executor core_commands st)
  end.

(** [do_actions].  [html_confirm title count] stands for the confirmation
    dialog: [Some true] when confirmed, [Some false] when declined and
    [None] while the dialog is being shown.  The result is the returned
    flag together with the executor calls that were made; messages shown
    to the user are left out. *)
Definition do_actions (config : Config) (command_registry : list Command)
    (html_confirm : string -> nat -> option bool)
    (what : string) (action_rows : list Row) : result (bool * list Execution) :=
  if negb (may config "general.act") then Ok (false, [])
  else
    match action_rows with
    | [] => Ok (false, [])
    | row0 :: _ =>
        '(_, title, _) ←
          core_command config command_registry what row0 0 (length action_rows);
        if negb (default false (html_confirm title (length action_rows)))
        then Ok (false, [])
        else
          st ← run_rows config command_registry what (length action_rows) 0 action_rows
                 (mkActionState 0 ∅ None []);
          Ok (true, executed st)
    end.

End Views.

(** ** cmk/gui/wato/pages/pattern_editor.py *)

Module PatternEditor.
Import Py.

(** A logwatch pattern: state, regular expression and comment. *)
Definition Pattern : Type := string * string * string.

(** The value of a logwatch rule: a list of patterns, or a dict holding the
    list under ["reclassify_patterns"]. *)
Inductive RuleValue : Type :=
  | PatternList (patterns : list Pattern)
  | PatternDict (d : gmap string (list Pattern)).

(** A rule of the ruleset with its folder, its number in the folder and the
    host and item conditions, [matches_host_and_item hostname item
    service_desc]. *)
Record Rule : Type := mkRule {
  rule_folder : string;
  rulenr : nat;
  rule_value : RuleValue;
  matches_host_and_item : string -> string -> string -> bool;
}.

(** One row of a rule's table. *)
Record PatternRow : Type := mkPatternRow {
  reason_class : string;
  match_class : string;
  match_img : string;
  state_cls : string;
  row_pattern : Pattern;
  disp_match_txt : option (string * string * string);  (* before, match, after *)
}.

Section Mode.

(** The collaborators of the mode: [re.search pattern text], giving the
    start and end of the match, [logwatch.level_state] and the service
    description automation. *)
Variable re_search : string -> string -> option (nat * nat).
Variable level_state : string -> Z.
Variable get_service_description : string -> string -> string -> string.

(** The fields of the mode set by [_from_vars]. *)
Variable _hostname : string.
Variable _item : string.
Variable _match_txt : string.

(** The body of the loop over the patterns of one rule; the flag
    [already_matched] is threaded through. *)
Definition show_pattern (rule_matches : bool) (p : Pattern) (already_matched : bool)
    : PatternRow * bool :=
  let '(state, pattern, comment) := p in
  let '(reason_class, match_class, match_img, disp, already_matched) :=
    if rule_matches then
      match re_search pattern _match_txt with
      | Some (match_start, match_end) =>
          let disp := Some (String.substring 0 match_start _match_txt,
                            String.substring match_start (match_end - match_start) _match_txt,
                            String.substring match_end
                              (String.length _match_txt - match_end) _match_txt) in
          if negb already_matched
          then ("reason", "match first", "match", disp, true)
          else ("reason", "match", "imatch", disp, already_matched)
      | None => ("reason", "", "nmatch", None, already_matched)
      end
    else ("noreason", "", "nmatch", None, already_matched) in
  let cls :=
    if bool_decide (match_class = "match first")
    then String.append "svcstate state" (pretty (level_state state))
    else "" in
  (mkPatternRow reason_class match_class match_img cls p disp, already_matched)%string.

Fixpoint show_pattern_list (rule_matches : bool) (pattern_list : list Pattern)
    (already_matched : bool) : list PatternRow * bool :=
  match pattern_list with
  | [] => ([], already_matched)
  | p :: pattern_list =>
      let '(row, already_matched) := show_pattern rule_matches p already_matched in
      let '(rows, already_matched) :=
        show_pattern_list rule_matches pattern_list already_matched in
      (row :: rows, already_matched)
  end.

(** Whether the rule applies to the host and item under test. *)
Definition rule_applies (rule : Rule) : bool :=
  if str_truthy _hostname then
    let service_desc := get_service_description _hostname "logwatch" _item in
    matches_host_and_item rule _hostname _item service_desc
  else true.

Definition pattern_list_of (rule : Rule) : result (list Pattern) :=
  match rule_value rule with
  | PatternList l => Ok l
  | PatternDict d => of_key (d !! "reclassify_patterns"%string)
  end.

(** The loop of [_show_patterns] over the rules: one table per rule,
    named after the running rule number. *)
Fixpoint show_rules (rules : list Rule) (already_matched : bool) (abs_rulenr : nat)
    : result (list (nat * list PatternRow)) :=
  match rules with
  | [] => Ok []
  | rule :: rules =>
      let rule_matches := rule_applies rule in
      pattern_list ← pattern_list_of rule;
      let '(rows, already_matched) :=
        show_pattern_list rule_matches pattern_list already_matched in
      tables ← show_rules rules already_matched (S abs_rulenr);
      Ok ((abs_rulenr, rows) :: tables)
  end.

(** [_show_patterns]: the tables displayed for the loaded ruleset. *)
Definition _show_patterns (ruleset : list Rule) : result (list (nat * list PatternRow)) :=
  show_rules ruleset false 0.

End Mode.

End PatternEditor.

(** ** Notions used to state the properties *)

Module Specs.
Import Py Views.

(** What a filter contributes to the filter headers: its header when
    neither its value, its validation nor its header generation raises. *)
Definition header_contribution (datasource_ident : string) (filt : Filter)
    : option string :=
  match value filt with
  | Ok v =>
      match validate_value filt v with
      | Ok _ =>
          match livestatus_header filt datasource_ident with
          | Ok header => Some header
          | Raise _ => None
          end
      | Raise _ => None
      end
  | Raise _ => None
  end.

(** A filter that raises nothing but [MKUserError]. *)
Definition raises_only_user_errors (datasource_ident : string) (filt : Filter) : Prop :=
  forall e, filter_header datasource_ident filt = Raise e -> exists varname, e = MKUserError varname.

(** Concatenation of strings in list order. *)
Definition concat_strings (l : list string) : string := foldr String.append ""%string l.

(** *** Commands *)

(** The site and command line of an executor call. *)
Definition execution_pair (e : Execution) : Value * string :=
  (exec_site e, exec_command e).

(** A core command given as a plain command line, without a site. *)
Definition plain_command (entry : CommandEntry) : Prop :=
  exists command, entry = CmdStr command.

(** The calls made so far are pairwise different, and the set
    [already_executed] holds exactly their sites and command lines. *)
Definition executed_once (st : ActionState) : Prop :=
  NoDup (map execution_pair (executed st)) /\
  forall (site : Value) (command : string),
    (site, CmdStr command) ∈ already_executed st <->
    (site, command) ∈ map execution_pair (executed st).

(** *** Joining *)

(** The key under which a row of the slave table is collected and a row of
    the master table looks up its join info: site and join master column. *)
Definition master_key (join_master_column : string) (row : Row) : option (Value * Value) :=
  site ← columns row !! "site"%string;
  master ← columns row !! join_master_column;
  Some (site, master).

(** The rows of one key stand next to each other. *)
Definition grouped {K} (keys : list K) : Prop :=
  forall (i j m : nat) (k : K),
    (i < m < j)%nat -> keys !! i = Some k -> keys !! j = Some k -> keys !! m = Some k.

(** No two slave rows have the same master key and the same join key. *)
Definition distinct_slaves (join_master_column join_slave_column : string)
    (rows : list Row) : Prop :=
  forall (i j : nat) (r1 r2 : Row),
    rows !! i = Some r1 -> rows !! j = Some r2 ->
    master_key join_master_column r1 = master_key join_master_column r2 ->
    columns r1 !! join_slave_column = columns r2 !! join_slave_column ->
    i = j.

(** The join info of a master row holds every slave row of that master
    row under the slave row's join key, and is empty if there is none. *)
Definition join_maps_all_slaves (join_master_column join_slave_column : string)
    (slave_rows : list Row) (master_row : Row) : Prop :=
  exists J, JOIN master_row = Some J /\
    (forall (r : Row) (s : Value),
       r ∈ slave_rows ->
       master_key join_master_column r = master_key join_master_column master_row ->
       columns r !! join_slave_column = Some s ->
       J !! s = Some r) /\
    ((forall r : Row, r ∈ slave_rows ->
        master_key join_master_column r <> master_key join_master_column master_row) ->
     J = ∅).

(** What the first loop of [_do_table_join] has built after the slave rows
    [done] (grouped, with distinct join keys): the current key is the key
    of the last row, the current entry is the dict registered for it, and
    the dict registered for a key holds exactly the rows of that key. *)
Definition join_inv (join_master_column join_slave_column : string)
    (done : list Row) (st : JoinState) : Prop :=
  current_key st = (last done ≫= master_key join_master_column) /\
  current_entry st = (current_key st ≫= fun k => per_master_entry st !! k) /\
  (forall k a, per_master_entry st !! k = Some a ->
     (a < length (dicts st))%nat /\
     Some k ∈ map (master_key join_master_column) done) /\
  (forall k, Some k ∈ map (master_key join_master_column) done ->
     is_Some (per_master_entry st !! k)) /\
  (forall k a d, per_master_entry st !! k = Some a -> dicts st !! a = Some d ->
     forall (s : Value) (r : Row),
       d !! s = Some r <->
       r ∈ done /\ master_key join_master_column r = Some k /\
       columns r !! join_slave_column = Some s) /\
  (forall k1 k2 a, per_master_entry st !! k1 = Some a ->
     per_master_entry st !! k2 = Some a -> k1 = k2).

(** *** Sorting *)

(** A three-way comparison is consistent when swapping the arguments flips
    the sign of the result and "not greater" is transitive: it then is the
    comparison of a total preorder. *)
Definition consistent {A} (c : A -> A -> Z) : Prop :=
  (forall a b, Z.sgn (c a b) = - Z.sgn (c b a)) /\
  (forall a b d, c a b <= 0 -> c b d <= 0 -> c a d <= 0).

(** Insertion sort with a comparison that cannot raise. *)
Fixpoint insert_by {A} (ltb : A -> A -> bool) (x : A) (l : list A) : list A :=
  match l with
  | [] => [x]
  | y :: l' => if ltb x y then x :: y :: l' else y :: insert_by ltb x l'
  end.

Fixpoint sort_loop_by {A} (ltb : A -> A -> bool) (todo sorted : list A) : list A :=
  match todo with
  | [] => sorted
  | x :: todo => sort_loop_by ltb todo (insert_by ltb x sorted)
  end.

(** The join row an entry with a join key compares, if the row has any. *)
Definition joined_row (k : string) (e : Row) : option Row :=
  j ← JOIN e; j !! VStr k.

(** The number an entry yields for two rows, a missing ["JOIN"] column
    counting like a missing join key. *)
Definition entry_value (entry : SorterEntry) (e1 e2 : Row) : Z :=
  (if negate entry then -1 else 1) *
  match join_key_truthy entry with
  | Some k => safe_compare (cmp (sorter entry)) (joined_row k e1) (joined_row k e2)
  | None => cmp (sorter entry) e1 e2
  end.

(** The number of the first entry that does not yield zero, or zero. *)
Definition first_nonzero (values : list Z) : Z :=
  default 0 (head (filter (fun c => c <> 0) values)).

Definition multisort_value (sorters : list SorterEntry) (e1 e2 : Row) : Z :=
  first_nonzero (map (fun entry => entry_value entry e1 e2) sorters).

(** The rows can be compared by the sorters without a [KeyError]: all of
    them have the ["JOIN"] column, or no entry sorts by a join column. *)
Definition sortable (sorters : list SorterEntry) (data : list Row) : Prop :=
  Forall (fun row => is_Some (JOIN row)) data \/
  Forall (fun entry => join_key_truthy entry = None) sorters.

(** *** Pattern editor *)

(** The patterns in display order, each with the flag whether its rule
    applies to the host and item under test. *)
Definition display_order (applies : PatternEditor.Rule -> bool)
    (rules : list PatternEditor.Rule) : list (bool * PatternEditor.Pattern) :=
  flat_map (fun rule =>
              match PatternEditor.pattern_list_of rule with
              | Ok l => map (fun p => (applies rule, p)) l
              | Raise _ => []
              end) rules.

(** A displayed pattern matches when its rule applies and its regular
    expression is found in the text. *)
Definition pattern_matches (re_search : string -> string -> option (nat * nat))
    (match_txt : string) (item : bool * PatternEditor.Pattern) : bool :=
  let '(applies, (_, pattern, _)) := item in
  applies && bool_decide (is_Some (re_search pattern match_txt)).

(** The marks of a displayed pattern that matches ([hit]) or does not,
    given whether an earlier pattern matched. *)
Definition expected_class (hit earlier : bool) : string :=
  if hit then if earlier then "match" else "match first" else "".

Definition expected_img (hit earlier : bool) : string :=
  if hit then if earlier then "imatch" else "match" else "nmatch".

(** [rows] are the rows displayed for [items], started with the flag
    [already_matched]: row [i] belongs to item [i] and is marked according
    to whether the item matches and whether the flag was set or an item
    before it matches. *)
Definition marked (matches : bool * PatternEditor.Pattern -> bool)
    (items : list (bool * PatternEditor.Pattern))
    (rows : list PatternEditor.PatternRow) (already_matched : bool) : Prop :=
  length rows = length items /\
  forall (i : nat) (row : PatternEditor.PatternRow) (item : bool * PatternEditor.Pattern),
    rows !! i = Some row -> items !! i = Some item ->
    let earlier := already_matched || existsb matches (take i items) in
    PatternEditor.row_pattern row = snd item /\
    PatternEditor.reason_class row = (if fst item then "reason" else "noreason")%string /\
    PatternEditor.match_class row = expected_class (matches item) earlier /\
    PatternEditor.match_img row = expected_img (matches item) earlier.

(** The rows of all tables in display order. *)
Definition displayed_rows (tables : list (nat * list PatternEditor.PatternRow))
    : list PatternEditor.PatternRow :=
  flat_map snd tables.

End Specs.

(** ** Sample data used in examples *)

Module Samples.
Import Py TypeDefs Views.

Definition oid_base : OIDSpec := mkOIDSpec "OIDSpec" ".1.3.6".
Definition oid_column : OIDSpec := mkOIDSpec "OIDCached" "2.1".

Definition snmp_config0 : SNMPHostConfig :=
  mkSNMPHostConfig (VBool false) (VStr "localhost") (VStr "127.0.0.1") (VStr "public")
    (VInt 161) (VBool false) (VBool false) (VInt 10) VNone (VList []) (VList [])
    (VStr "ascii") (VBool false) (VBool false) (VBool false).

Definition config_of (perms : list string) : Config :=
  mkConfig 1000 5000 (fun p => bool_decide (p ∈ perms)).

(** A row without join information. *)
Definition row_of (cols : list (string * Value)) : Row := mkRow (list_to_map cols) None.

Definition no_rows : TableQuery := fun _ _ _ _ => Ok [].

Definition hosts_ds : DataSource :=
  mkDataSource "hosts" ["host"%string] None "" ["host_name"%string]
    ["site"; "host_name"]%string false no_rows.

(** A filter that always validates and a filter whose validation fails. *)
Definition plain_filter (name header : string) : Filter :=
  mkFilter name (Ok ∅) (fun _ => Ok tt) (fun _ => Ok header) (fun rows => rows) false.

Definition invalid_filter (name : string) : Filter :=
  mkFilter name (Ok ∅) (fun _ => Raise (MKUserError (Some name)))
    (fun _ => Ok "Filter: unused;"%string) (fun rows => rows) false.

Definition hosts_view : View :=
  mkView (mkViewSpec (Some "allhosts"%string) (Some "Filter: custom;"%string) false None)
    hosts_ds [] [] [] None None.

(** A stand-in for [re.search] on patterns without metacharacters that
    are looked for at the start of the text. *)
Definition literal_search (pattern text : string) : option (nat * nat) :=
  if startswith text pattern then Some (0%nat, String.length pattern) else None.

Definition sample_level_state (state : string) : Z :=
  if bool_decide (state = "C"%string) then 2
  else if bool_decide (state = "W"%string) then 1 else 0.

Definition rule_all_hosts : PatternEditor.Rule :=
  PatternEditor.mkRule "" 0
    (PatternEditor.PatternList
       [("C", "fatal", "a fatal error"); ("W", "err", "any error")]%string)
    (fun _ _ _ => true).

Definition rule_web_hosts : PatternEditor.Rule :=
  PatternEditor.mkRule "web" 0
    (PatternEditor.PatternDict
       {[ "reclassify_patterns"%string := [("O", "error", "harmless")]%string ]})
    (fun hostname _ _ => bool_decide (hostname = "web01"%string)).

(** A command that acknowledges the problems of host [web01].  For rows
    of BI aggregations it names the site in the command entry. *)
Definition acknowledge : Command :=
  mkCommand "action.acknowledge"
    (fun cmdtag spec row row_nr total_rows =>
       match columns row !! "aggr_name"%string with
       | Some _ =>
           Some (CommandList
                   [CmdTuple (VStr "siteA") "ACKNOWLEDGE_HOST_PROBLEM;web01"%string],
                 "acknowledge"%string)
       | None =>
           Some (OneCommand (CmdStr "ACKNOWLEDGE_HOST_PROBLEM;web01"%string),
                 "acknowledge"%string)
       end)
    "livestatus".

Definition aggr_row (name : string) : Row := row_of [("aggr_name"%string, VStr name)].

Definition host_row (site name : string) : Row :=
  row_of [("site"%string, VStr site); ("host_name"%string, VStr name)].

Definition confirmed : string -> nat -> option bool := fun _ _ => Some true.

(** A sorter comparing the integer in column [name]. *)
Definition int_column (name : string) (row : Row) : Z :=
  match columns row !! name with
  | Some (VInt z) => z
  | _ => 0
  end.

Definition sorter_by (name : string) : Sorter :=
  mkSorter (fun r1 r2 => int_column name r1 - int_column name r2) [name] false.

Definition service_row (host : string) (state : Z) (descr : string) : Row :=
  row_of [("site"%string, VStr "siteA"); ("host_name"%string, VStr host);
          ("service_state"%string, VInt state);
          ("service_description"%string, VStr descr)].

(** A host row joined with some of its services, by description. *)
Definition joined_host (host : string) (services : list (string * Z)) : Row :=
  mkRow (list_to_map [("site"%string, VStr "siteA"); ("host_name"%string, VStr host)])
    (Some (list_to_map
             (map (fun s => (VStr (fst s), service_row host (snd s) (fst s))) services))).

(** A services table with three rows, a view on it that sorts by state,
    and a filter that keeps the rows with a state other than OK. *)
Definition three_services : TableQuery :=
  fun _ _ _ _ =>
    Ok [service_row "web01" 2 "CPU"; service_row "db01" 0 "Disk"; service_row "web02" 1 "Mem"].

Definition services_ds : DataSource :=
  mkDataSource "services" ["service"; "host"]%string None "service_description"
    ["host_name"; "service_description"]%string
    ["site"; "host_name"; "service_description"]%string false three_services.

Definition services_view : View :=
  mkView (mkViewSpec (Some "svcproblems"%string) None false None) services_ds [] []
    [mkSorterEntry (sorter_by "service_state") true None] None None.

Definition problems_only : Filter :=
  mkFilter "svcstate" (Ok ∅) (fun _ => Ok tt) (fun _ => Ok ""%string)
    (fun rows => filter (fun row => int_column "service_state" row <> 0) rows) false.

Definition plain_env (request : Request) : Env :=
  mkEnv request "html" false true ∅ ∅ (fun _ => None) (fun _ rows => rows).

(** A hosts view with one join cell, joined with a services table that
    answers with the given rows. *)
Definition services_table (rows : list Row) : DataSource :=
  mkDataSource "services" ["service"; "host"]%string None "service_description"
    ["host_name"; "service_description"]%string
    ["site"; "host_name"; "service_description"]%string false
    (fun _ _ _ _ => Ok rows).

Definition state_of_service (descr : string) : Cell :=
  mkCell true {[ "service_state"%string ]}
    (fun column => String.append "Filter: " (String.append column (String.append " = " descr)))
    "service_state" VNone false None.

Definition joined_hosts_view : View :=
  mkView (mkViewSpec (Some "hosts_with_cpu"%string) None false None)
    (mkDataSource "hosts" ["host"%string] (Some ("services", "host_name")%string) ""
       ["host_name"%string] ["site"; "host_name"]%string false no_rows)
    [state_of_service "CPU"] [] [] None None.

End Samples.

(** * Properties *)

(** ** Strings *)

Section StringFacts.
Import Py.

Lemma chars_append (a b : string) :
  chars (String.append a b) = chars a ++ chars b.
Proof. unfold chars. induction a as [|c a IH]; simpl; [done|]. by rewrite IH. Qed.

Lemma str_truthy_chars (s : string) : str_truthy s = false <-> chars s = [].
Proof. destruct s; simpl; split; congruence. Qed.

Lemma str_truthy_of_list (l : list Ascii.ascii) :
  str_truthy (String.string_of_list_ascii l) = false <-> l = [].
Proof. destruct l; simpl; split; congruence. Qed.

Lemma chars_inj (a b : string) : chars a = chars b -> a = b.
Proof.
  intros H. rewrite <- (String.string_of_list_ascii_of_string a),
    <- (String.string_of_list_ascii_of_string b). unfold chars in H. by rewrite H.
Qed.

Lemma endswith_app_dot (a b : string) :
  chars b <> [] -> endswith (String.append a b) "." = endswith b ".".
Proof.
  intros Hb. unfold endswith. rewrite chars_append.
  apply bool_decide_ext. change (chars ".") with ["."%char].
  split; intros [k Hk].
  - destruct (chars b) as [|c l] using rev_ind; [done|].
    rewrite app_assoc in Hk. apply app_inj_tail in Hk as [_ ->].
    by apply suffix_app_r.
  - exists (chars a ++ k). rewrite Hk. by rewrite app_assoc.
Qed.

End StringFacts.

(** ** OID specs *)

Section OIDSpecFacts.
Import Py TypeDefs Samples.

Lemma filter_invalid_nil (s : string) :
  filter (fun c => c ∉ chars VALID_CHARACTERS) (chars s) = [] <->
  Forall (fun c => c ∈ chars ".0123456789") (chars s).
Proof.
  change (chars VALID_CHARACTERS) with (chars ".0123456789").
  induction (chars s) as [|c l IH]; [done|].
  rewrite filter_cons, Forall_cons. destruct (decide (c ∉ _)) as [Hn|Hy].
  - split; [discriminate|]. intros [Hc _]. by destruct Hn.
  - rewrite IH. split; [|tauto]. intros Hl. split; [|done].
    destruct (decide (c ∈ chars ".0123456789")); tauto.
Qed.

Lemma validate_ok (v : PyObj) :
  validate v = Ok tt <-> exists s, v = ObjStr s /\ well_formed_oid s.
Proof.
  split.
  - destruct v as [| |s|]; try discriminate. unfold validate.
    destruct (str_truthy s) eqn:Hs; cbn [negb]; [|discriminate].
    destruct (str_truthy (String.string_of_list_ascii _)) eqn:Hinv; [discriminate|].
    destruct (endswith s ".") eqn:He; [discriminate|].
    intros _. exists s. split; [done|]. repeat split; [| |done].
    + intros ->. discriminate.
    + apply str_truthy_of_list in Hinv. by apply filter_invalid_nil.
  - intros (s & -> & Hne & Hall & Hend). unfold validate.
    destruct s as [|c s]; [done|]. cbn [str_truthy negb].
    apply filter_invalid_nil in Hall. rewrite Hall. cbn [String.string_of_list_ascii str_truthy].
    by rewrite Hend.
Qed.

Lemma OIDSpec_init_ok (cls : ClassName) (v : PyObj) (o : OIDSpec) :
  OIDSpec_init cls v = Ok o <->
  exists s, v = ObjStr s /\ well_formed_oid s /\ o = mkOIDSpec cls s.
Proof.
  unfold OIDSpec_init. split.
  - destruct (validate v) as [[]|e] eqn:Hv; [|discriminate].
    apply validate_ok in Hv as (s & -> & Hwf). cbn.
    intros [= <-]. by exists s.
  - intros (s & -> & Hwf & ->).
    assert (validate (ObjStr s) = Ok tt) as -> by (apply validate_ok; eauto).
    reflexivity.
Qed.

Lemma constructed_well_formed (o : OIDSpec) :
  constructed o -> well_formed_oid (_value o).
Proof. intros (v & Hv). apply OIDSpec_init_ok in Hv as (s & _ & Hwf & ->). exact Hwf. Qed.

Lemma well_formed_concat (a b : string) :
  well_formed_oid a -> well_formed_oid b ->
  well_formed_oid (String.append a (String.append "." b)).
Proof.
  intros (Ha & Hfa & _) (Hb & Hfb & Heb). repeat split.
  - destruct a; [done|discriminate].
  - rewrite !chars_append. apply Forall_app. split; [done|].
    apply Forall_app. split; [|done].
    apply Forall_cons. split; [|done]. apply list_elem_of_here.
  - assert (chars b <> []) as Hcb by (destruct b; [done|discriminate]).
    rewrite endswith_app_dot.
    + by rewrite endswith_app_dot.
    + rewrite chars_append. discriminate.
Qed.

(** C8.  Concatenating OID specs: [a + b] succeeds exactly when [b] is an
    OID spec, [a] starts with a dot and [b] does not; the result then has
    the class of [b] and the value [str(a) + "." + str(b)].  Any other
    right operand raises [TypeError], a violated dot condition raises
    [ValueError], and whatever the constructor returns holds a non-empty
    string of digits and dots that does not end in a dot. *)
Theorem OIDSpec_add_spec (a : OIDSpec) (b : PyObj)
    (Ha : constructed a)
    (Hb : forall ob, b = ObjOID ob -> constructed ob) :
  ((exists r, OIDSpec_add a b = Ok r) <->
     (exists ob, b = ObjOID ob /\
                 startswith (_value a) "." = true /\
                 startswith (_value ob) "." = false)) /\
  (forall ob, b = ObjOID ob ->
     startswith (_value a) "." = true ->
     startswith (_value ob) "." = false ->
     OIDSpec_add a b =
       Ok (mkOIDSpec (oid_class ob)
             (String.append (OIDSpec_str a) (String.append "." (OIDSpec_str ob))))) /\
  ((forall ob, b <> ObjOID ob) -> OIDSpec_add a b = Raise TypeError) /\
  (forall ob, b = ObjOID ob ->
     startswith (_value a) "." = false \/ startswith (_value ob) "." = true ->
     OIDSpec_add a b = Raise ValueError) /\
  (forall cls v o, OIDSpec_init cls v = Ok o ->
     v = ObjStr (_value o) /\ oid_class o = cls /\ well_formed_oid (_value o)) /\
  (forall r, OIDSpec_add a b = Ok r -> constructed r).
Proof.
  assert (forall ob, b = ObjOID ob ->
     startswith (_value a) "." = true ->
     startswith (_value ob) "." = false ->
     OIDSpec_add a b =
       Ok (mkOIDSpec (oid_class ob)
             (String.append (OIDSpec_str a) (String.append "." (OIDSpec_str ob)))))
    as Hsucc.
  { intros ob -> Hsa Hsb. unfold OIDSpec_add. rewrite Hsa, Hsb. cbn [negb orb].
    apply OIDSpec_init_ok. eexists. split; [reflexivity|]. split; [|reflexivity].
    apply well_formed_concat; apply constructed_well_formed; auto. }
  assert (forall ob, b = ObjOID ob ->
     startswith (_value a) "." = false \/ startswith (_value ob) "." = true ->
     OIDSpec_add a b = Raise ValueError) as Hval.
  { intros ob -> [H|H]; unfold OIDSpec_add; rewrite H; [done|].
    by rewrite orb_true_r. }
  assert ((forall ob, b <> ObjOID ob) -> OIDSpec_add a b = Raise TypeError) as Hty.
  { intros Hn. destruct b as [| | |ob]; try reflexivity. by destruct (Hn ob). }
  split; [split|split; [|split; [|split; [|split]]]].
  - intros [r Hr]. destruct b as [| | |ob]; try discriminate.
    exists ob. split; [done|].
    destruct (startswith (_value a) ".") eqn:Hsa;
      [destruct (startswith (_value ob) ".") eqn:Hsb; [|done]|];
      exfalso; rewrite (Hval ob) in Hr by auto; discriminate.
  - intros (ob & Hob & Hsa & Hsb). eexists. by apply Hsucc.
  - exact Hsucc.
  - exact Hty.
  - exact Hval.
  - intros cls v o H. by apply OIDSpec_init_ok in H as (s & -> & ? & ->).
  - intros r Hr. destruct b as [| | |ob]; try discriminate.
    unfold OIDSpec_add in Hr.
    destruct (negb _ || _); [discriminate|].
    pose proof Hr as Hr'. apply OIDSpec_init_ok in Hr' as (s & _ & _ & ->).
    eexists. exact Hr.
Qed.

Lemma OIDSpec_add_spec_witness :
  OIDSpec_add oid_base (ObjOID oid_column) = Ok (mkOIDSpec "OIDCached" ".1.3.6.2.1").
Proof.
  assert (constructed oid_base) as Ha by (exists (ObjStr ".1.3.6"); reflexivity).
  assert (forall ob, ObjOID oid_column = ObjOID ob -> constructed ob) as Hb.
  { intros ob [= <-]. exists (ObjStr "2.1"). reflexivity. }
  destruct (OIDSpec_add_spec oid_base (ObjOID oid_column) Ha Hb) as (_ & H & _).
  apply (H oid_column); reflexivity.
Defined.

Example OIDSpec_add_int : OIDSpec_add oid_base (ObjInt 3) = Raise TypeError.
Proof. reflexivity. Qed.

Example OIDSpec_add_two_bases : OIDSpec_add oid_base (ObjOID oid_base) = Raise ValueError.
Proof. reflexivity. Qed.

Example OIDSpec_init_trailing_dot : OIDSpec_init "OIDSpec" (ObjStr ".1.3.") = Raise ValueError.
Proof. reflexivity. Qed.

End OIDSpecFacts.

(** ** SNMP host configuration *)

Section SNMPHostConfigFacts.
Import Py TypeDefs Samples.

Lemma dom_asdict (c : SNMPHostConfig) : dom (_asdict c) = list_to_set _fields.
Proof.
  unfold _asdict, _fields. cbn [list_to_map list_to_set foldr fst snd uncurry].
  rewrite !dom_insert_L, dom_empty_L. reflexivity.
Qed.

Ltac solve_field_lookups :=
  repeat lazymatch goal with
  | |- context [<[?k := _]> _ !! ?i] =>
      destruct (decide (k = i)) as [<-|?];
      [rewrite lookup_insert_eq; congruence|rewrite lookup_insert_ne by done]
  end.

(** The constructor rebuilds exactly the dict it is given, provided the
    keys are the field names. *)
Lemma SNMPHostConfig_new_asdict (m : gmap string Value) :
  dom m = list_to_set _fields ->
  exists c', SNMPHostConfig_new m = Ok c' /\ _asdict c' = m.
Proof.
  intros Hdom.
  assert (forall f, f ∈ _fields -> is_Some (m !! f)) as Hf.
  { intros f Hin. apply elem_of_dom. rewrite Hdom. by apply elem_of_list_to_set. }
  assert (forall f, f ∉ _fields -> m !! f = None) as Hnf.
  { intros f Hnin. apply not_elem_of_dom. rewrite Hdom. by rewrite elem_of_list_to_set. }
  destruct (Hf "is_ipv6_primary"%string ltac:(compute_done)) as [v1 H1].
  destruct (Hf "hostname"%string ltac:(compute_done)) as [v2 H2].
  destruct (Hf "ipaddress"%string ltac:(compute_done)) as [v3 H3].
  destruct (Hf "credentials"%string ltac:(compute_done)) as [v4 H4].
  destruct (Hf "port"%string ltac:(compute_done)) as [v5 H5].
  destruct (Hf "is_bulkwalk_host"%string ltac:(compute_done)) as [v6 H6].
  destruct (Hf "is_snmpv2or3_without_bulkwalk_host"%string ltac:(compute_done)) as [v7 H7].
  destruct (Hf "bulk_walk_size_of"%string ltac:(compute_done)) as [v8 H8].
  destruct (Hf "timing"%string ltac:(compute_done)) as [v9 H9].
  destruct (Hf "oid_range_limits"%string ltac:(compute_done)) as [v10 H10].
  destruct (Hf "snmpv3_contexts"%string ltac:(compute_done)) as [v11 H11].
  destruct (Hf "character_encoding"%string ltac:(compute_done)) as [v12 H12].
  destruct (Hf "is_usewalk_host"%string ltac:(compute_done)) as [v13 H13].
  destruct (Hf "is_inline_snmp_host"%string ltac:(compute_done)) as [v14 H14].
  destruct (Hf "record_stats"%string ltac:(compute_done)) as [v15 H15].
  eexists. split.
  - unfold SNMPHostConfig_new. rewrite bool_decide_eq_true_2 by (by rewrite Hdom).
    unfold required.
    rewrite H1, H2, H3, H4, H5, H6, H7, H8, H9, H10, H11, H12, H13, H14, H15.
    reflexivity.
  - apply map_eq. intros i. unfold _asdict.
    cbn [list_to_map foldr fst snd uncurry
         is_ipv6_primary hostname ipaddress credentials port is_bulkwalk_host
         is_snmpv2or3_without_bulkwalk_host bulk_walk_size_of timing
         oid_range_limits snmpv3_contexts character_encoding is_usewalk_host
         is_inline_snmp_host record_stats].
    solve_field_lookups.
    rewrite lookup_empty. symmetry. apply Hnf.
    unfold _fields. rewrite !elem_of_cons, elem_of_nil. intuition congruence.
Qed.

(** C9.  [c.update(kwargs)] with keywords that all name fields returns a
    configuration whose named fields carry the given values and whose
    other fields are those of [c].  Named tuples are immutable and
    [update] works on the fresh dict made by [_asdict], so [c] is the
    same value before and after the call. *)
Theorem SNMPHostConfig_update_frame (c : SNMPHostConfig) (kwargs : gmap string Value)
    (Hk : dom kwargs ⊆ list_to_set _fields) :
  exists c', update c kwargs = Ok c' /\
    (forall f v, kwargs !! f = Some v -> _asdict c' !! f = Some v) /\
    (forall f, kwargs !! f = None -> _asdict c' !! f = _asdict c !! f) /\
    dom (_asdict c') = dom (_asdict c).
Proof.
  unfold update, dict_update.
  destruct (SNMPHostConfig_new_asdict (kwargs ∪ _asdict c)) as (c' & Hnew & Hd).
  { rewrite dom_union_L, dom_asdict. by apply subseteq_union_1_L. }
  exists c'. split; [exact Hnew|]. rewrite Hd. split; [|split].
  - intros f v Hf. by apply lookup_union_Some_l.
  - intros f Hf. by apply lookup_union_r.
  - rewrite dom_union_L, dom_asdict. by apply subseteq_union_1_L.
Qed.

Lemma SNMPHostConfig_update_frame_witness :
  exists c', update snmp_config0 {[ "port"%string := VInt 1161 ]} = Ok c' /\
    _asdict c' !! "port"%string = Some (VInt 1161) /\
    _asdict c' !! "hostname"%string = Some (VStr "localhost").
Proof.
  destruct (SNMPHostConfig_update_frame snmp_config0 {[ "port"%string := VInt 1161 ]})
    as (c' & Hc & Hset & Hkeep & _).
  { compute_done. }
  exists c'. split; [exact Hc|]. split.
  - apply Hset. reflexivity.
  - rewrite Hkeep by reflexivity. reflexivity.
Defined.

Example update_port :
  update snmp_config0 {[ "port"%string := VInt 1161 ]} =
  Ok (mkSNMPHostConfig (VBool false) (VStr "localhost") (VStr "127.0.0.1") (VStr "public")
    (VInt 1161) (VBool false) (VBool false) (VInt 10) VNone (VList []) (VList [])
    (VStr "ascii") (VBool false) (VBool false) (VBool false)).
Proof. vm_compute. reflexivity. Qed.

Example update_unknown_field :
  update snmp_config0 {[ "colour"%string := VStr "red" ]} = Raise TypeError.
Proof. vm_compute. reflexivity. Qed.

Example asdict_port (c : SNMPHostConfig) : _asdict c !! "port"%string = Some (port c).
Proof. reflexivity. Qed.

End SNMPHostConfigFacts.

(** ** Query limit *)

Section LimitFacts.
Import Py Views Samples.

(** C3.  [get_limit] returns the soft limit, except that a request for
    ["hard"] by a user who may ignore the soft limit yields the hard limit
    and a request for ["none"] by a user who may ignore the hard limit
    yields no limit at all.  In particular ["none"] without that
    permission yields the soft limit. *)
Theorem get_limit_spec (request : Request) (config : Config) :
  let limitvar := request_var request "limit" (Some "soft"%string) in
  (limitvar = Some "hard"%string ->
   may config "general.ignore_soft_limit" = true ->
   get_limit request config = Some (hard_query_limit config)) /\
  (limitvar = Some "none"%string ->
   may config "general.ignore_hard_limit" = true ->
   get_limit request config = None) /\
  (~ (limitvar = Some "hard"%string /\ may config "general.ignore_soft_limit" = true) ->
   ~ (limitvar = Some "none"%string /\ may config "general.ignore_hard_limit" = true) ->
   get_limit request config = Some (soft_query_limit config)) /\
  (limitvar = Some "none"%string ->
   may config "general.ignore_hard_limit" = false ->
   get_limit request config = Some (soft_query_limit config)) /\
  (request !! "limit"%string = None ->
   get_limit request config = Some (soft_query_limit config)).
Proof.
  intros limitvar. unfold get_limit. fold limitvar.
  split; [|split; [|split; [|split]]].
  - intros -> ->. reflexivity.
  - intros -> ->. reflexivity.
  - intros H1 H2.
    destruct (bool_decide_reflect (limitvar = Some "hard"%string)) as [Hh|Hh];
      destruct (may config "general.ignore_soft_limit") eqn:Hs; cbn [andb];
      try (exfalso; apply H1; by split);
      destruct (bool_decide_reflect (limitvar = Some "none"%string)) as [Hn|Hn];
      destruct (may config "general.ignore_hard_limit") eqn:Hi; cbn [andb];
      try (exfalso; apply H2; by split); reflexivity.
  - intros -> ->. reflexivity.
  - intros Hnone. subst limitvar. unfold request_var. rewrite Hnone. reflexivity.
Qed.

Lemma get_limit_spec_witness :
  get_limit {[ "limit"%string := "hard"%string ]}
    (config_of ["general.ignore_soft_limit"%string]) = Some 5000 /\
  get_limit {[ "limit"%string := "none"%string ]}
    (config_of ["general.ignore_hard_limit"%string]) = None /\
  get_limit {[ "limit"%string := "hard"%string ]} (config_of []) = Some 1000 /\
  get_limit {[ "limit"%string := "none"%string ]}
    (config_of ["general.ignore_soft_limit"%string]) = Some 1000 /\
  get_limit ∅ (config_of ["general.ignore_hard_limit"%string]) = Some 1000.
Proof.
  split; [|split; [|split; [|split]]].
  - destruct (get_limit_spec {[ "limit"%string := "hard"%string ]}
                (config_of ["general.ignore_soft_limit"%string])) as (H & _).
    apply H; reflexivity.
  - destruct (get_limit_spec {[ "limit"%string := "none"%string ]}
                (config_of ["general.ignore_hard_limit"%string])) as (_ & H & _).
    apply H; reflexivity.
  - destruct (get_limit_spec {[ "limit"%string := "hard"%string ]} (config_of []))
      as (_ & _ & H & _).
    apply H; intros [_ Hmay]; vm_compute in Hmay; discriminate Hmay.
  - destruct (get_limit_spec {[ "limit"%string := "none"%string ]}
                (config_of ["general.ignore_soft_limit"%string])) as (_ & _ & _ & H & _).
    apply H; reflexivity.
  - destruct (get_limit_spec ∅ (config_of ["general.ignore_hard_limit"%string]))
      as (_ & _ & _ & _ & H).
    apply H; reflexivity.
Defined.

End LimitFacts.

(** ** Livestatus filter headers *)

Section FilterHeaderFacts.
Import Py Views Specs Samples.

Lemma append_assoc (a b c : string) :
  String.append (String.append a b) c = String.append a (String.append b c).
Proof. apply chars_inj. rewrite !chars_append. by rewrite app_assoc. Qed.

Lemma append_empty_r (a : string) : String.append a "" = a.
Proof. apply chars_inj. rewrite chars_append. apply app_nil_r. Qed.

Lemma filter_header_contribution (datasource_ident : string) (filt : Filter) :
  match filter_header datasource_ident filt with
  | Ok header => header_contribution datasource_ident filt = Some header
  | Raise _ => header_contribution datasource_ident filt = None
  end.
Proof.
  unfold filter_header, header_contribution.
  destruct (value filt) as [v|e]; [|done]. cbn.
  destruct (validate_value filt v) as [[]|e]; [|done]. cbn.
  by destruct (livestatus_header filt datasource_ident).
Qed.

Lemma filter_headers_loop_spec (datasource_ident : string) (filters : list Filter) :
  Forall (raises_only_user_errors datasource_ident) filters ->
  forall filterheaders user_errors,
  exists user_errors',
    filter_headers_loop datasource_ident filters filterheaders user_errors =
    Ok (String.append filterheaders
          (concat_strings (omap (header_contribution datasource_ident) filters)),
        user_errors').
Proof.
  induction 1 as [|filt filters Hfilt _ IH]; intros filterheaders user_errors.
  - exists user_errors. cbn. by rewrite append_empty_r.
  - cbn [filter_headers_loop omap list_omap].
    pose proof (filter_header_contribution datasource_ident filt) as Hc.
    destruct (filter_header datasource_ident filt) as [header|e] eqn:Hh.
    + rewrite Hc. destruct (IH (String.append filterheaders header) user_errors)
        as [errs ->]. exists errs. by rewrite append_assoc.
    + rewrite Hc. destruct (Hfilt e Hh) as [varname ->]. apply IH.
Qed.

(** C4.  When no filter raises anything but [MKUserError], the header
    string of the data query is the concatenation, in filter order, of the
    headers of the filters that validate and generate a header, followed by
    the [add_headers] of the view spec; a filter that raises [MKUserError]
    contributes nothing and the loop goes on. *)
Theorem livestatus_filter_headers_spec (view : View) (all_active_filters : list Filter)
    (Hraise : Forall (raises_only_user_errors (ident (datasource view))) all_active_filters) :
  exists filterheaders user_errors,
    get_livestatus_filter_headers (ident (datasource view)) all_active_filters =
      Ok (filterheaders, user_errors) /\
    filterheaders =
      concat_strings (omap (header_contribution (ident (datasource view)))
                        all_active_filters) /\
    query_headers view filterheaders =
      String.append
        (concat_strings (omap (header_contribution (ident (datasource view)))
                           all_active_filters))
        (default ""%string (add_headers (spec view))) /\
    (forall filt varname,
       filt ∈ all_active_filters ->
       filter_header (ident (datasource view)) filt = Raise (MKUserError varname) ->
       header_contribution (ident (datasource view)) filt = None).
Proof.
  destruct (filter_headers_loop_spec _ _ Hraise ""%string []) as [errs Hloop].
  eexists _, errs. split; [exact Hloop|]. split; [reflexivity|]. split; [reflexivity|].
  intros filt varname _ Hr.
  pose proof (filter_header_contribution (ident (datasource view)) filt) as Hc.
  by rewrite Hr in Hc.
Qed.

Lemma livestatus_filter_headers_spec_witness :
  exists filterheaders user_errors,
    get_livestatus_filter_headers "hosts"
      [plain_filter "host" "Filter: host_name = a;"; invalid_filter "hostalias";
       plain_filter "hoststate" "Filter: state = 0;"]%string =
      Ok (filterheaders, user_errors) /\
    query_headers hosts_view filterheaders =
      "Filter: host_name = a;Filter: state = 0;Filter: custom;"%string.
Proof.
  destruct (livestatus_filter_headers_spec hosts_view
    [plain_filter "host" "Filter: host_name = a;"; invalid_filter "hostalias";
     plain_filter "hoststate" "Filter: state = 0;"]%string)
    as (fh & errs & Hloop & _ & Hq & _).
  { repeat constructor; intros e He; vm_compute in He;
      first [discriminate He | injection He as <-; eexists; reflexivity]. }
  exists fh, errs. split; [exact Hloop|]. rewrite Hq. reflexivity.
Defined.

Example filter_headers_user_error :
  get_livestatus_filter_headers "hosts"
    [invalid_filter "hostalias"; plain_filter "host" "Filter: host_name = a;"]%string =
  Ok ("Filter: host_name = a;"%string, [Some "hostalias"%string]).
Proof. reflexivity. Qed.

End FilterHeaderFacts.

(** ** Logfile pattern editor *)

Section PatternEditorFacts.
Import Py PatternEditor Specs.

Variable re_search : string -> string -> option (nat * nat).
Variable level_state : string -> Z.
Variable get_service_description : string -> string -> string -> string.
Variables _hostname _item _match_txt : string.

Let matches := pattern_matches re_search _match_txt.
Let applies := rule_applies get_service_description _hostname _item.
Let show1 := show_pattern re_search level_state _match_txt.

(** The row made for one pattern, in terms of whether it matches and
    whether an earlier pattern matched. *)
Lemma show_pattern_spec (rule_matches : bool) (p : Pattern) (already_matched : bool) :
  let '(row, already_matched') := show1 rule_matches p already_matched in
  already_matched' = already_matched || matches (rule_matches, p) /\
  row_pattern row = p /\
  reason_class row = (if rule_matches then "reason" else "noreason")%string /\
  match_class row =
    (if matches (rule_matches, p)
     then if already_matched then "match" else "match first"
     else "")%string /\
  match_img row =
    (if matches (rule_matches, p)
     then if already_matched then "imatch" else "match"
     else "nmatch")%string.
Proof.
  subst show1 matches. unfold show_pattern, pattern_matches.
  destruct p as [[state pattern] comment].
  destruct rule_matches; cbn [andb].
  - destruct (re_search pattern _match_txt) as [[match_start match_end]|].
    + rewrite bool_decide_eq_true_2 by eauto.
      destruct already_matched; cbn; auto.
    + rewrite bool_decide_eq_false_2 by (intros [? ?]; discriminate).
      rewrite orb_false_r. cbn. auto.
  - rewrite orb_false_r. cbn. auto.
Qed.

Lemma marked_nil (a : bool) : marked matches [] [] a.
Proof. split; [done|]. intros i row item Hr. by rewrite lookup_nil in Hr. Qed.

Lemma marked_cons (item : bool * Pattern) (row : PatternRow) items rows (a : bool) :
  row_pattern row = snd item ->
  reason_class row = (if fst item then "reason" else "noreason")%string ->
  match_class row = expected_class (matches item) a ->
  match_img row = expected_img (matches item) a ->
  marked matches items rows (a || matches item) ->
  marked matches (item :: items) (row :: rows) a.
Proof.
  intros Hp Hr Hc Hi [Hlen Hrows]. split; [cbn; by rewrite Hlen|].
  intros [|i] row' item' Hrow Hitem; cbn in Hrow, Hitem.
  - injection Hrow as <-. injection Hitem as <-. cbn. by rewrite orb_false_r.
  - cbn [take existsb]. rewrite orb_assoc. by apply Hrows.
Qed.

Lemma marked_app items1 rows1 items2 rows2 (a : bool) :
  marked matches items1 rows1 a ->
  marked matches items2 rows2 (a || existsb matches items1) ->
  marked matches (items1 ++ items2) (rows1 ++ rows2) a.
Proof.
  intros [Hlen1 H1] [Hlen2 H2]. split; [by rewrite !length_app, Hlen1, Hlen2|].
  intros i row item Hrow Hitem.
  destruct (decide (i < length rows1)%nat) as [Hlt|Hge].
  - rewrite lookup_app_l in Hrow by done.
    rewrite lookup_app_l in Hitem by lia.
    rewrite take_app_le by lia. by apply H1.
  - rewrite lookup_app_r in Hrow by lia.
    rewrite lookup_app_r in Hitem by lia.
    rewrite Hlen1 in Hrow.
    rewrite take_app_ge by lia. rewrite existsb_app, orb_assoc.
    by apply H2.
Qed.

Lemma show_pattern_list_spec (rule_matches : bool) (pattern_list : list Pattern)
    (already_matched : bool) :
  let items := map (fun p => (rule_matches, p)) pattern_list in
  let '(rows, already_matched') :=
    show_pattern_list re_search level_state _match_txt rule_matches pattern_list
      already_matched in
  already_matched' = already_matched || existsb matches items /\
  marked matches items rows already_matched.
Proof.
  revert already_matched.
  induction pattern_list as [|p l IH]; intros a; cbn.
  - split; [by rewrite orb_false_r|apply marked_nil].
  - pose proof (show_pattern_spec rule_matches p a) as Hp. subst show1.
    destruct (show_pattern _ _ _ rule_matches p a) as [row a1].
    destruct Hp as (-> & Hpat & Hreason & Hclass & Himg).
    specialize (IH (a || matches (rule_matches, p))).
    destruct (show_pattern_list _ _ _ rule_matches l _) as [rows a2].
    destruct IH as [-> Hm]. split; [by rewrite orb_assoc|].
    by apply marked_cons.
Qed.

Lemma show_rules_spec (rules : list Rule) (already_matched : bool) (abs_rulenr : nat)
    (tables : list (nat * list PatternRow)) :
  show_rules re_search level_state get_service_description _hostname _item _match_txt
    rules already_matched abs_rulenr = Ok tables ->
  marked matches (display_order applies rules) (displayed_rows tables) already_matched.
Proof.
  revert already_matched abs_rulenr tables.
  induction rules as [|rule rules IH]; intros a n tables; cbn [show_rules].
  - intros [= <-]. apply marked_nil.
  - unfold display_order. cbn [flat_map]. fold (display_order applies rules).
    destruct (pattern_list_of rule) as [l|e]; [|discriminate]. cbn.
    pose proof (show_pattern_list_spec
      (rule_applies get_service_description _hostname _item rule) l a) as Hl.
    cbn zeta in Hl.
    destruct (show_pattern_list _ _ _ _ l a) as [rows a1].
    destruct Hl as [-> Hm].
    destruct (show_rules _ _ _ _ _ _ rules _ (S n)) as [tables'|e] eqn:Hrest;
      [|discriminate].
    cbn. intros [= <-]. unfold displayed_rows. cbn [flat_map snd].
    apply marked_app; [exact Hm|]. by eapply IH.
Qed.

Lemma existsb_take_false {A} (f : A -> bool) (l : list A) (i : nat) :
  existsb f (take i l) = false <->
  forall (j : nat) x, (j < i)%nat -> l !! j = Some x -> f x = false.
Proof.
  split.
  - intros Hex j x Hj Hx.
    destruct (f x) eqn:Hfx; [|done].
    assert (existsb f (take i l) = true) as Ht; [|congruence].
    apply existsb_exists. exists x. split; [|done].
    apply list_elem_of_In, list_elem_of_lookup. exists j.
    by rewrite lookup_take_lt.
  - intros Hall. destruct (existsb f (take i l)) eqn:Hex; [|done].
    apply existsb_exists in Hex as (x & Hin & Hfx).
    apply list_elem_of_In, list_elem_of_lookup in Hin as [j Hj].
    apply lookup_take_Some in Hj as [Hj Hlt].
    rewrite (Hall j x Hlt Hj) in Hfx. discriminate.
Qed.

Lemma existsb_take_true {A} (f : A -> bool) (l : list A) (i : nat) :
  existsb f (take i l) = true <->
  exists (j : nat) x, (j < i)%nat /\ l !! j = Some x /\ f x = true.
Proof.
  split.
  - intros Hex. apply existsb_exists in Hex as (x & Hin & Hfx).
    apply list_elem_of_In, list_elem_of_lookup in Hin as [j Hj].
    apply lookup_take_Some in Hj as [Hj Hlt]. eauto.
  - intros (j & x & Hlt & Hj & Hfx).
    destruct (existsb f (take i l)) eqn:Hex; [done|].
    rewrite (proj1 (existsb_take_false f l i) Hex j x Hlt Hj) in Hfx. discriminate.
Qed.

(** The tables are produced whenever every rule holds its pattern list. *)
Lemma show_rules_total (rules : list Rule) (already_matched : bool) (abs_rulenr : nat) :
  Forall (fun rule => exists l, pattern_list_of rule = Ok l) rules ->
  exists tables,
    show_rules re_search level_state get_service_description _hostname _item _match_txt
      rules already_matched abs_rulenr = Ok tables.
Proof.
  intros Hall. revert already_matched abs_rulenr.
  induction Hall as [|rule rules [l Hl] _ IH]; intros a n; cbn [show_rules].
  - by eexists.
  - rewrite Hl. cbn.
    destruct (show_pattern_list _ _ _ _ l a) as [rows a1].
    destruct (IH a1 (S n)) as [tables ->]. by eexists.
Qed.

(** C7.  Among the patterns displayed for a ruleset, the one marked as the
    defining first match is the first pattern in display order whose rule
    applies to the host and item and whose regular expression matches the
    text; there is at most one such mark.  Every later pattern that also
    matches is marked as a subsequent match, and a pattern that does not
    match, in particular every pattern of a rule that does not apply, is
    not marked as a match. *)
Theorem show_patterns_first_match (ruleset : list Rule)
    (tables : list (nat * list PatternRow))
    (Hshow : _show_patterns re_search level_state get_service_description
               _hostname _item _match_txt ruleset = Ok tables) :
  let rows := displayed_rows tables in
  let items := display_order applies ruleset in
  length rows = length items /\
  (forall (i : nat) (row : PatternRow) (item : bool * Pattern),
     rows !! i = Some row -> items !! i = Some item ->
     row_pattern row = snd item /\
     (match_class row = "match first"%string <->
        matches item = true /\
        forall (j : nat) item', (j < i)%nat -> items !! j = Some item' ->
                                matches item' = false) /\
     (match_class row = "match"%string <->
        matches item = true /\
        exists (j : nat) item', (j < i)%nat /\ items !! j = Some item' /\
                                matches item' = true) /\
     (matches item = false ->
        match_class row = ""%string /\ match_img row = "nmatch"%string) /\
     (fst item = false ->
        matches item = false /\ reason_class row = "noreason"%string)) /\
  (forall (i j : nat) (r1 r2 : PatternRow),
     rows !! i = Some r1 -> rows !! j = Some r2 ->
     match_class r1 = "match first"%string ->
     match_class r2 = "match first"%string -> i = j).
Proof.
  intros rows items.
  apply show_rules_spec in Hshow as [Hlen Hrows]. fold rows items in Hlen, Hrows.
  assert (forall (i : nat) (row : PatternRow) (item : bool * Pattern),
     rows !! i = Some row -> items !! i = Some item ->
     (match_class row = "match first"%string <->
        matches item = true /\
        forall (j : nat) item', (j < i)%nat -> items !! j = Some item' ->
                                matches item' = false)) as Hfirst.
  { intros i row item Hrow Hitem.
    destruct (Hrows i row item Hrow Hitem) as (_ & _ & Hclass & _).
    cbn [orb] in Hclass. rewrite Hclass, <- existsb_take_false.
    unfold expected_class.
    destruct (matches item), (existsb matches (take i items)); split;
      first [discriminate | by intros [? ?] | done]. }
  split; [exact Hlen|]. split.
  - intros i row item Hrow Hitem.
    destruct (Hrows i row item Hrow Hitem) as (Hpat & Hreason & Hclass & Himg).
    cbn [orb] in Hclass, Himg.
    split; [exact Hpat|]. split; [by apply Hfirst|]. split; [|split].
    + rewrite Hclass, <- existsb_take_true. unfold expected_class.
      destruct (matches item), (existsb matches (take i items)); split;
        first [discriminate | by intros [? ?] | done].
    + intros Hno. rewrite Hclass, Himg, Hno. done.
    + intros Hrule. rewrite Hreason, Hrule. split; [|done].
      subst matches. unfold pattern_matches.
      destruct item as [a [[? ?] ?]]. cbn in Hrule. by rewrite Hrule.
  - intros i j r1 r2 Hr1 Hr2 Hc1 Hc2.
    destruct (lookup_lt_is_Some_2 items i) as [item1 Hi1];
      [rewrite <- Hlen; by eapply lookup_lt_Some|].
    destruct (lookup_lt_is_Some_2 items j) as [item2 Hi2];
      [rewrite <- Hlen; by eapply lookup_lt_Some|].
    apply (Hfirst i r1 item1 Hr1 Hi1) in Hc1 as [Hm1 Hbefore1].
    apply (Hfirst j r2 item2 Hr2 Hi2) in Hc2 as [Hm2 Hbefore2].
    destruct (Nat.lt_trichotomy i j) as [Hlt|[Heq|Hgt]]; [|done|].
    + rewrite (Hbefore2 i item1 Hlt Hi1) in Hm1. discriminate.
    + rewrite (Hbefore1 j item2 Hgt Hi2) in Hm2. discriminate.
Qed.

End PatternEditorFacts.

Section PatternEditorExamples.
Import Py PatternEditor Specs Samples.

Lemma show_patterns_first_match_witness :
  exists tables,
    _show_patterns literal_search sample_level_state (fun _ _ _ => ""%string)
      "" "" "error: disk full" [rule_all_hosts; rule_web_hosts] = Ok tables /\
    map match_class (displayed_rows tables) = [""; "match first"; "match"]%string /\
    (forall (i j : nat) (r1 r2 : PatternRow),
       displayed_rows tables !! i = Some r1 -> displayed_rows tables !! j = Some r2 ->
       match_class r1 = "match first"%string ->
       match_class r2 = "match first"%string -> i = j).
Proof.
  eexists. split; [vm_compute; reflexivity|]. split; [reflexivity|].
  eapply (show_patterns_first_match literal_search sample_level_state
            (fun _ _ _ => ""%string) "" "" "error: disk full"
            [rule_all_hosts; rule_web_hosts]).
  vm_compute. reflexivity.
Defined.

Example show_patterns_rule_not_applying :
  (tables ← _show_patterns literal_search sample_level_state (fun _ _ _ => "svc"%string)
              "db01" "messages" "error: disk full" [rule_web_hosts; rule_all_hosts];
   Ok (map (fun row => (reason_class row, match_img row)) (displayed_rows tables))) =
  Ok [("noreason", "nmatch"); ("reason", "nmatch"); ("reason", "match")]%string.
Proof. vm_compute. reflexivity. Qed.

End PatternEditorExamples.

(** ** Commands on rows *)

Section ActionFacts.
Import Py Views Specs Samples.

(** Without the permission to act, without rows, or without a confirmed
    dialog nothing is executed and the result is [False]. *)
Lemma do_actions_nothing_done (config : Config) (command_registry : list Command)
    (html_confirm : string -> nat -> option bool) (what : string)
    (action_rows : list Row) (flag : bool) (calls : list Execution) :
  may config "general.act" = false \/ action_rows = [] \/
    (forall title, html_confirm title (length action_rows) <> Some true) ->
  do_actions config command_registry html_confirm what action_rows = Ok (flag, calls) ->
  flag = false /\ calls = [].
Proof.
  unfold do_actions. intros [Hmay|[->|Hconf]].
  - rewrite Hmay. cbn. by intros [= <- <-].
  - destruct (may config "general.act"); cbn; by intros [= <- <-].
  - destruct (may config "general.act"); cbn; [|by intros [= <- <-]].
    destruct action_rows as [|row0 rows]; [by intros [= <- <-]|].
    destruct (core_command _ _ _ row0 _ _) as [[[cmds title] ex]|e]; [|discriminate].
    cbn. specialize (Hconf title).
    destruct (html_confirm title _) as [[]|]; cbn; try done; by intros [= <- <-].
Qed.

(** For plain command lines the inner loop sends every pair of the row's
    site and a command line that was not sent before, once. *)
Lemma run_commands_plain (row : Row) (executor : string)
    (core_commands : list CommandEntry) (st : ActionState) :
  Forall plain_command core_commands ->
  executed_once st ->
  executed_once (run_commands row executor core_commands st) /\
  forall (site : Value) (command : string),
    (site, command) ∈
      map execution_pair (executed (run_commands row executor core_commands st)) <->
    (site, command) ∈ map execution_pair (executed st) \/
    (site = row_get row "site" /\ CmdStr command ∈ core_commands).
Proof.
  intros Hplain. revert st.
  induction Hplain as [|entry entries [c ->] _ IH]; intros st Hst; cbn [run_commands].
  - split; [exact Hst|]. intros site command. rewrite elem_of_nil. tauto.
  - destruct Hst as [Hnodup Hset].
    destruct (bool_decide_reflect
                ((row_get row "site", CmdStr c) ∉ already_executed st)) as [Hnew|Hold].
    + match goal with |- context [run_commands _ _ _ ?st1] => set (st' := st1) end.
      assert (executed_once st') as Hst'.
      { subst st'. split; cbn [executed already_executed].
        - rewrite map_app. cbn. apply NoDup_app. split; [done|]. split.
          + intros p Hp Hp'. apply list_elem_of_singleton in Hp' as ->.
            apply Hnew. by apply Hset.
          + apply NoDup_singleton.
        - intros site command. rewrite elem_of_union, elem_of_singleton, Hset.
          rewrite map_app, elem_of_app. cbn. rewrite list_elem_of_singleton.
          unfold execution_pair. cbn. split.
          * intros [Heq|?]; [right; by injection Heq as -> ->|by left].
          * intros [?|Heq]; [by right|left; by injection Heq as -> ->]. }
      destruct (IH st' Hst') as [Honce Hpairs]. split; [exact Honce|].
      intros site command. rewrite Hpairs. subst st'. cbn [executed].
      rewrite map_app, elem_of_app, elem_of_cons. cbn. rewrite list_elem_of_singleton.
      unfold execution_pair at 2. cbn. split.
      * intros [[?|Heq]|[-> ?]]; [by left| |by right; auto].
        injection Heq as -> ->. right. auto.
      * intros [?|[-> [Heq|?]]]; [by left; left| |by right].
        injection Heq as ->. left. by right.
    + destruct (IH st (conj Hnodup Hset)) as [Honce Hpairs]. split; [exact Honce|].
      intros site command. rewrite Hpairs, elem_of_cons. split.
      * intros [?|[-> ?]]; [by left|right; auto].
      * intros [?|[-> [Heq|?]]]; [by left| |by right].
        injection Heq as ->. left. apply Hset.
        destruct (decide ((row_get row "site", CmdStr c) ∈ already_executed st)); done.
Qed.

Lemma run_rows_plain (config : Config) (command_registry : list Command)
    (what : string) (total_rows : nat) (action_rows : list Row) :
  forall (nr : nat) (st st' : ActionState),
  run_rows config command_registry what total_rows nr action_rows st = Ok st' ->
  (forall (i : nat) row cmds title ex,
     action_rows !! i = Some row ->
     core_command config command_registry what row (nr + i) total_rows =
       Ok (cmds, title, ex) ->
     Forall plain_command cmds) ->
  executed_once st ->
  executed_once st' /\
  forall (site : Value) (command : string),
    (site, command) ∈ map execution_pair (executed st') <->
    (site, command) ∈ map execution_pair (executed st) \/
    exists (i : nat) row cmds title ex,
      action_rows !! i = Some row /\
      core_command config command_registry what row (nr + i) total_rows =
        Ok (cmds, title, ex) /\
      site = row_get row "site" /\ CmdStr command ∈ cmds.
Proof.
  induction action_rows as [|row rows IH]; intros nr st st' Hrun Hplain Hst.
  - cbn in Hrun. injection Hrun as <-. split; [exact Hst|].
    intros site command. split; [by left|]. intros [?|(i & ? & ? & ? & ? & Hi & _)]; [done|].
    by rewrite lookup_nil in Hi.
  - cbn [run_rows] in Hrun.
    destruct (core_command config command_registry what row nr total_rows)
      as [[[cmds title] ex]|e] eqn:Hcore; [|discriminate].
    cbn in Hrun.
    assert (Forall plain_command cmds) as Hcmds.
    { apply (Hplain 0%nat row cmds title ex); [done|]. by rewrite Nat.add_0_r. }
    destruct (run_commands_plain row ex cmds st Hcmds Hst) as [Hst1 Hpairs1].
    destruct (IH (S nr) _ st' Hrun) as [Hst' Hpairs]; [|exact Hst1|].
    { intros i row' cmds' title' ex' Hi Hc.
      apply (Hplain (S i) row' cmds' title' ex'); [done|].
      by rewrite Nat.add_succ_r. }
    split; [exact Hst'|]. intros site command. rewrite Hpairs, Hpairs1. split.
    + intros [[?|[-> Hin]]|(i & row' & cmds' & title' & ex' & Hi & Hc & -> & Hin)].
      * by left.
      * right. exists 0%nat, row, cmds, title, ex. by rewrite Nat.add_0_r.
      * right. exists (S i), row', cmds', title', ex'. by rewrite Nat.add_succ_r.
    + intros [?|(i & row' & cmds' & title' & ex' & Hi & Hc & -> & Hin)]; [by left; left|].
      destruct i as [|i].
      * cbn in Hi. injection Hi as <-. rewrite Nat.add_0_r, Hcore in Hc.
        injection Hc as <- <- <-. left. by right.
      * right. exists i, row', cmds', title', ex'. by rewrite Nat.add_succ_r in Hc.
Qed.

(** When the core commands are plain command lines, [do_actions] sends
    every pair of a row's site and a command line exactly once. *)
Lemma do_actions_plain_commands (config : Config) (command_registry : list Command)
    (html_confirm : string -> nat -> option bool) (what : string)
    (action_rows : list Row) (calls : list Execution) :
  do_actions config command_registry html_confirm what action_rows = Ok (true, calls) ->
  (forall (i : nat) row cmds title ex,
     action_rows !! i = Some row ->
     core_command config command_registry what row i (length action_rows) =
       Ok (cmds, title, ex) ->
     Forall plain_command cmds) ->
  NoDup (map execution_pair calls) /\
  forall (site : Value) (command : string),
    (site, command) ∈ map execution_pair calls <->
    exists (i : nat) row cmds title ex,
      action_rows !! i = Some row /\
      core_command config command_registry what row i (length action_rows) =
        Ok (cmds, title, ex) /\
      site = row_get row "site" /\ CmdStr command ∈ cmds.
Proof.
  unfold do_actions. intros Hdo Hplain.
  destruct (negb (may config "general.act")); [discriminate|].
  destruct action_rows as [|row0 rows] eqn:Hrows; [discriminate|]. rewrite <- Hrows in *.
  destruct (core_command _ _ _ row0 _ _) as [[[? title] ?]|e]; [|discriminate].
  cbn in Hdo. destruct (negb _); [discriminate|].
  destruct (run_rows _ _ _ _ _ _ _) as [st|e] eqn:Hrun; [|discriminate].
  cbn in Hdo. injection Hdo as <-.
  destruct (run_rows_plain _ _ _ _ _ _ _ _ Hrun) as [[Hnodup _] Hpairs].
  - exact Hplain.
  - split; [constructor|]. intros site command. cbn. rewrite elem_of_empty, elem_of_nil.
    tauto.
  - split; [exact Hnodup|]. intros site command. rewrite Hpairs. cbn.
    rewrite elem_of_nil. tauto.
Qed.

(** Two rows with the same site and the same command line: the command is
    sent once. *)
Example do_actions_same_host_twice :
  do_actions (config_of ["general.act"; "action.acknowledge"]%string) [acknowledge]
    confirmed "host" [host_row "siteA" "web01"; host_row "siteA" "web01"] =
  Ok (true, [mkExecution "livestatus" "ACKNOWLEDGE_HOST_PROBLEM;web01" (VStr "siteA")]).
Proof. vm_compute. reflexivity. Qed.

(** C6 (failing input).  Two rows of BI aggregations, which carry no site,
    both yield the entry [("siteA", "ACKNOWLEDGE_HOST_PROBLEM;web01")].  The
    membership test looks for the pair of the row's site ([None]) and the
    entry, but what is recorded as executed is the pair of the entry's own
    site and the entry, so the test never finds it: the same command is
    sent to the same site once per row. *)
Theorem do_actions_repeats_site_command :
  do_actions (config_of ["general.act"; "action.acknowledge"]%string) [acknowledge]
    confirmed "aggr" [aggr_row "Web shop"; aggr_row "Intranet"] =
  Ok (true,
      [mkExecution "livestatus" "ACKNOWLEDGE_HOST_PROBLEM;web01" (VStr "siteA");
       mkExecution "livestatus" "ACKNOWLEDGE_HOST_PROBLEM;web01" (VStr "siteA")]).
Proof. vm_compute. reflexivity. Qed.

End ActionFacts.

(** ** Lists *)

Section ListFacts.
Context {A : Type} (P : A -> Prop) `{!forall x, Decision (P x)}.

Lemma filter_none (l : list A) : Forall (fun x => ~ P x) l -> filter P l = [].
Proof.
  induction 1 as [|x l Hx _ IH]; [done|]. by rewrite filter_cons_False.
Qed.

Lemma filter_ext_in (Q : A -> Prop) `{!forall x, Decision (Q x)} (l : list A) :
  (forall x, x ∈ l -> P x <-> Q x) -> filter P l = filter Q l.
Proof.
  induction l as [|x l IH]; intros Hpq; [done|].
  rewrite !filter_cons, IH by (intros y Hy; apply Hpq; by apply list_elem_of_further).
  destruct (decide (P x)) as [Hp|Hp], (decide (Q x)) as [Hq|Hq]; try done;
    apply (Hpq x (list_elem_of_here _ _)) in Hp || apply (Hpq x (list_elem_of_here _ _)) in Hq;
    done.
Qed.

End ListFacts.

Lemma StronglySorted_lookup {A} (R : A -> A -> Prop) (l : list A) (i j : nat) (a b : A) :
  StronglySorted R l -> (i < j)%nat -> l !! i = Some a -> l !! j = Some b -> R a b.
Proof.
  intros Hs. revert i j. induction Hs as [|x l Hl IH Hx]; intros i j Hij Ha Hb.
  - by rewrite lookup_nil in Ha.
  - destruct j as [|j]; [lia|]. cbn in Hb. destruct i as [|i]; cbn in Ha.
    + injection Ha as <-. rewrite Forall_forall in Hx. apply Hx.
      by eapply list_elem_of_lookup_2.
    + apply (IH i j); [lia|done|done].
Qed.

(** ** Insertion sort *)

Section InsertionSortPerm.
Import Specs.
Context {A : Type} (ltb : A -> A -> bool).

Lemma insert_by_perm (x : A) (l : list A) : insert_by ltb x l ≡ₚ x :: l.
Proof.
  induction l as [|y l IH]; cbn; [done|].
  destruct (ltb x y); [done|]. rewrite IH. apply Permutation_swap.
Qed.

Lemma sort_loop_by_perm (todo sorted : list A) :
  sort_loop_by ltb todo sorted ≡ₚ sorted ++ todo.
Proof.
  revert sorted. induction todo as [|x todo IH]; intros sorted; cbn.
  - by rewrite app_nil_r.
  - rewrite IH, insert_by_perm. apply Permutation_middle.
Qed.

End InsertionSortPerm.

(** ** Insertion sort with a consistent comparison *)

Section InsertionSort.
Import Specs.
Context {A : Type} (c : A -> A -> Z).

Let ltb (x y : A) : bool := bool_decide (c x y < 0).
Let le (x y : A) : Prop := c x y <= 0.

Hypothesis Hc : consistent c.

Lemma cmp_flip_pos (a b : A) : 0 <= c a b -> c b a <= 0.
Proof. destruct Hc as [Hanti _]. specialize (Hanti a b). lia. Qed.

Lemma cmp_flip_neg (a b : A) : c a b < 0 <-> 0 < c b a.
Proof. destruct Hc as [Hanti _]. specialize (Hanti a b). lia. Qed.

Lemma cmp_flip_zero (a b : A) : c a b = 0 -> c b a = 0.
Proof. destruct Hc as [Hanti _]. specialize (Hanti a b). lia. Qed.

Lemma cmp_refl (a : A) : c a a = 0.
Proof. destruct Hc as [Hanti _]. specialize (Hanti a a). lia. Qed.

Lemma cmp_le_trans (a b d : A) : c a b <= 0 -> c b d <= 0 -> c a d <= 0.
Proof. destruct Hc as [_ Htrans]. apply Htrans. Qed.

Lemma cmp_lt_le_trans (a b d : A) : c a b < 0 -> c b d <= 0 -> c a d < 0.
Proof.
  intros Hab Hbd. destruct (Z_lt_ge_dec (c a d) 0) as [|Hge]; [done|].
  assert (c d a <= 0) as Hda by (apply cmp_flip_pos; lia).
  pose proof (cmp_le_trans b d a Hbd Hda) as Hba.
  apply cmp_flip_neg in Hab. lia.
Qed.

Lemma cmp_le_lt_trans (a b d : A) : c a b <= 0 -> c b d < 0 -> c a d < 0.
Proof.
  intros Hab Hbd. destruct (Z_lt_ge_dec (c a d) 0) as [|Hge]; [done|].
  assert (c d a <= 0) as Hda by (apply cmp_flip_pos; lia).
  pose proof (cmp_le_trans d a b Hda Hab) as Hdb.
  apply cmp_flip_neg in Hbd. lia.
Qed.

Lemma cmp_eq_trans (a b d : A) : c a b = 0 -> c b d = 0 -> c a d = 0.
Proof.
  intros Hab Hbd.
  assert (c a d <= 0) by (apply (cmp_le_trans a b d); lia).
  assert (c d a <= 0).
  { apply (cmp_le_trans d b a); [rewrite (cmp_flip_zero b d)|rewrite (cmp_flip_zero a b)];
      done. }
  destruct Hc as [Hanti _]. specialize (Hanti a d). lia.
Qed.

Lemma insert_by_sorted (x : A) (l : list A) :
  StronglySorted le l -> StronglySorted le (insert_by ltb x l).
Proof.
  induction 1 as [|y l Hl IH Hy]; cbn.
  - repeat constructor.
  - unfold ltb at 1. destruct (bool_decide_reflect (c x y < 0)) as [Hlt|Hge].
    + constructor; [by constructor|]. constructor; [unfold le; lia|].
      eapply Forall_impl; [exact Hy|]. intros z Hz.
      apply (cmp_le_trans x y z); [lia|exact Hz].
    + constructor; [exact IH|].
      rewrite insert_by_perm. constructor; [|exact Hy].
      apply cmp_flip_pos. lia.
Qed.

Lemma sort_loop_by_sorted (todo sorted : list A) :
  StronglySorted le sorted -> StronglySorted le (sort_loop_by ltb todo sorted).
Proof.
  revert sorted. induction todo as [|x todo IH]; intros sorted Hs; cbn; [done|].
  by apply IH, insert_by_sorted.
Qed.

(** An inserted element goes behind the elements it compares equal to. *)
Lemma insert_by_stable (z x : A) (l : list A) :
  StronglySorted le l ->
  filter (fun y => c z y = 0) (insert_by ltb x l) =
  filter (fun y => c z y = 0) l ++ filter (fun y => c z y = 0) [x].
Proof.
  induction 1 as [|y l Hl IH Hy]; cbn [insert_by]; [by rewrite (filter_nil _)|].
  unfold ltb at 1. destruct (bool_decide_reflect (c x y < 0)) as [Hlt|Hge].
  - rewrite (filter_cons _ x). destruct (decide (c z x = 0)) as [Hzx|Hzx].
    + assert (filter (fun y0 => c z y0 = 0) (y :: l) = []) as ->.
      { apply filter_none. constructor.
        - pose proof (cmp_le_lt_trans z x y). lia.
        - eapply Forall_impl; [exact Hy|]. intros w Hw.
          pose proof (cmp_lt_le_trans x y w Hlt Hw).
          pose proof (cmp_le_lt_trans z x w). lia. }
      cbn [app]. rewrite filter_cons_True by done. by rewrite filter_nil.
    + rewrite (filter_cons_False _ x []) by done. by rewrite filter_nil, app_nil_r.
  - rewrite !(filter_cons _ y). rewrite IH.
    destruct (decide (c z y = 0)); done.
Qed.

Lemma sort_loop_by_stable (z : A) (todo sorted : list A) :
  StronglySorted le sorted ->
  filter (fun y => c z y = 0) (sort_loop_by ltb todo sorted) =
  filter (fun y => c z y = 0) sorted ++ filter (fun y => c z y = 0) todo.
Proof.
  revert sorted. induction todo as [|x todo IH]; intros sorted Hs; cbn [sort_loop_by].
  - by rewrite filter_nil, app_nil_r.
  - rewrite IH by (by apply insert_by_sorted).
    rewrite insert_by_stable by done. rewrite <- app_assoc.
    f_equal. rewrite (filter_cons _ x todo).
    rewrite (filter_cons _ x []). rewrite filter_nil.
    destruct (decide (c z x = 0)); done.
Qed.

(** Two ordered lists in which the elements that compare equal to any
    given element come in the same order are the same list: what a stable
    sort returns does not depend on how it sorts. *)
Lemma stable_sorted_unique (l1 l2 : list A) :
  StronglySorted le l1 -> StronglySorted le l2 ->
  (forall z, filter (fun y => c z y = 0) l1 = filter (fun y => c z y = 0) l2) ->
  l1 = l2.
Proof.
  intros Hs1. revert l2. induction Hs1 as [|x t1 Ht1 IH Hx]; intros l2 Hs2 Hf.
  - destruct l2 as [|y t2]; [done|].
    specialize (Hf y). rewrite filter_nil, filter_cons_True in Hf by apply cmp_refl.
    discriminate.
  - destruct Hs2 as [|y t2 Ht2 Hy].
    { specialize (Hf x). rewrite filter_nil, filter_cons_True in Hf by apply cmp_refl.
      discriminate. }
    assert (x = y) as <-.
    { pose proof (Hf x) as Hfx. rewrite (filter_cons_True _ x t1) in Hfx by apply cmp_refl.
      destruct (decide (c x y = 0)) as [Hxy|Hxy].
      { rewrite filter_cons_True in Hfx by done. by injection Hfx. }
      rewrite filter_cons_False in Hfx by done.
      pose proof (Hf y) as Hfy. rewrite (filter_cons_True _ y t2) in Hfy by apply cmp_refl.
      rewrite filter_cons_False in Hfy
        by (intros Hyx; apply Hxy; by apply cmp_flip_zero).
      assert (x ∈ t2) as Hxin.
      { apply (list_elem_of_filter (fun y => c x y = 0)). rewrite <- Hfx.
        apply list_elem_of_here. }
      assert (y ∈ t1) as Hyin.
      { apply (list_elem_of_filter (fun y0 => c y y0 = 0)). rewrite Hfy.
        apply list_elem_of_here. }
      rewrite Forall_forall in Hx, Hy.
      pose proof (Hx y Hyin) as Hle1. pose proof (Hy x Hxin) as Hle2.
      unfold le in Hle1, Hle2. exfalso. apply Hxy.
      destruct Hc as [Hanti _]. specialize (Hanti x y). lia. }
    f_equal. apply IH; [done|]. intros z. specialize (Hf z).
    rewrite !filter_cons in Hf. destruct (decide (c z x = 0)); [by injection Hf|done].
Qed.

(** In particular every stable sort agrees with insertion sort. *)
Lemma stable_sort_agrees (data sorted : list A) :
  StronglySorted le sorted ->
  (forall z, filter (fun y => c z y = 0) sorted = filter (fun y => c z y = 0) data) ->
  sorted = sort_loop_by ltb data [].
Proof.
  intros Hs Hf. apply stable_sorted_unique; [done| |].
  - apply sort_loop_by_sorted. constructor.
  - intros z. rewrite Hf, sort_loop_by_stable by constructor. by rewrite filter_nil.
Qed.

End InsertionSort.

(** ** The sort of [list.sort] when no comparison raises *)

Section ListSort.
Import Py Views Specs.
Context {A : Type} (lt : A -> A -> result bool) (ltb : A -> A -> bool).

Lemma sort_insert_pure (x : A) (l : list A) :
  (forall y, y ∈ l -> lt x y = Ok (ltb x y)) ->
  sort_insert lt x l = Ok (insert_by ltb x l).
Proof.
  induction l as [|y l IH]; intros Hlt; cbn; [done|].
  rewrite (Hlt y) by apply list_elem_of_here. cbn.
  destruct (ltb x y); [done|].
  rewrite IH; [done|]. intros z Hz. apply Hlt. by apply list_elem_of_further.
Qed.

Lemma sort_loop_pure (todo sorted : list A) :
  (forall x y, x ∈ todo ++ sorted -> y ∈ todo ++ sorted -> lt x y = Ok (ltb x y)) ->
  sort_loop lt todo sorted = Ok (sort_loop_by ltb todo sorted).
Proof.
  revert sorted. induction todo as [|x todo IH]; intros sorted Hlt; cbn; [done|].
  rewrite sort_insert_pure.
  - cbn. apply IH. intros a b Ha Hb.
    apply Hlt; rewrite elem_of_app in *; rewrite insert_by_perm in *;
      rewrite !elem_of_cons in *; tauto.
  - intros y Hy. apply Hlt; rewrite elem_of_app, elem_of_cons; tauto.
Qed.

Lemma sort_insert_perm (x : A) (l l' : list A) :
  sort_insert lt x l = Ok l' -> l' ≡ₚ x :: l.
Proof.
  revert l'. induction l as [|y l IH]; intros l'; cbn.
  - by intros [= <-].
  - destruct (lt x y) as [[]|e]; cbn; [by intros [= <-]| |discriminate].
    destruct (sort_insert lt x l) as [l''|e]; cbn; [|discriminate].
    intros [= <-]. rewrite (IH l'' eq_refl). apply Permutation_swap.
Qed.

Lemma sort_loop_perm (todo sorted l' : list A) :
  sort_loop lt todo sorted = Ok l' -> l' ≡ₚ sorted ++ todo.
Proof.
  revert sorted. induction todo as [|x todo IH]; intros sorted; cbn.
  - intros [= <-]. by rewrite app_nil_r.
  - destruct (sort_insert lt x sorted) as [sorted'|e] eqn:Hins; cbn; [|discriminate].
    intros Hloop. rewrite (IH _ Hloop), (sort_insert_perm _ _ _ Hins).
    apply Permutation_middle.
Qed.

Lemma list_sort_pure (l : list A) :
  (forall x y, x ∈ l -> y ∈ l -> lt x y = Ok (ltb x y)) ->
  list_sort lt l = Ok (sort_loop_by ltb l []).
Proof.
  intros Hlt. apply sort_loop_pure. intros x y. rewrite app_nil_r. apply Hlt.
Qed.

End ListSort.

(** ** Sorting the rows of a view *)

Section SortFacts.
Import Py Views Specs Samples.

Lemma consistent_flip {A} (c : A -> A -> Z) :
  consistent c -> consistent (fun a b => -1 * c a b).
Proof.
  intros Hc. split.
  - intros a b. destruct Hc as [Hanti _]. specialize (Hanti a b). lia.
  - intros a b d Hab Hbd.
    pose proof (cmp_flip_pos c Hc a b). pose proof (cmp_flip_pos c Hc b d).
    pose proof (cmp_le_trans c Hc d b a).
    destruct Hc as [Hanti _]. specialize (Hanti a d). lia.
Qed.

Lemma consistent_scale_one {A} (c : A -> A -> Z) :
  consistent c -> consistent (fun a b => 1 * c a b).
Proof.
  intros [Hanti Htrans]. split.
  - intros a b. rewrite !Z.mul_1_l. apply Hanti.
  - intros a b d. rewrite !Z.mul_1_l. apply Htrans.
Qed.

Lemma consistent_on {A B} (f : A -> B) (c : B -> B -> Z) :
  consistent c -> consistent (fun a b => c (f a) (f b)).
Proof. intros [Hanti Htrans]. split; intros; eauto. Qed.

(** [safe_compare] extends a consistent comparison to rows that may be
    missing, a missing row coming first. *)
Lemma safe_compare_consistent (c : Row -> Row -> Z) :
  consistent c -> consistent (safe_compare c).
Proof.
  intros [Hanti Htrans]. split.
  - intros [a|] [b|]; cbn; solve [apply Hanti | done].
  - intros [a|] [b|] [d|]; cbn; solve [apply Htrans | lia].
Qed.

Lemma entry_value_consistent (entry : SorterEntry) :
  consistent (cmp (sorter entry)) -> consistent (entry_value entry).
Proof.
  intros Hc. unfold entry_value.
  assert (consistent (fun e1 e2 : Row =>
    match join_key_truthy entry with
    | Some k => safe_compare (cmp (sorter entry)) (joined_row k e1) (joined_row k e2)
    | None => cmp (sorter entry) e1 e2
    end)) as Hinner.
  { destruct (join_key_truthy entry) as [k|]; [|done].
    apply (consistent_on (joined_row k)). by apply safe_compare_consistent. }
  destruct (negate entry).
  - by apply consistent_flip in Hinner.
  - by apply consistent_scale_one in Hinner.
Qed.

(** The lexicographic combination of consistent comparisons is
    consistent. *)
Lemma consistent_lex {A} (c1 c2 : A -> A -> Z) :
  consistent c1 -> consistent c2 ->
  consistent (fun a b => if decide (c1 a b <> 0) then c1 a b else c2 a b).
Proof.
  intros H1 H2. split.
  - intros a b. pose proof (cmp_flip_zero c1 H1 a b). pose proof (cmp_flip_zero c1 H1 b a).
    destruct (decide (c1 a b <> 0)), (decide (c1 b a <> 0)); try lia.
    + apply H1.
    + apply H2.
  - intros a b d.
    pose proof (cmp_lt_le_trans c1 H1 a b d). pose proof (cmp_le_lt_trans c1 H1 a b d).
    pose proof (cmp_eq_trans c1 H1 a b d). pose proof (cmp_le_trans c2 H2 a b d).
    destruct (decide (c1 a b <> 0)), (decide (c1 b d <> 0)), (decide (c1 a d <> 0)); lia.
Qed.

Lemma multisort_value_nil (e1 e2 : Row) : multisort_value [] e1 e2 = 0.
Proof. reflexivity. Qed.

Lemma multisort_value_cons (entry : SorterEntry) sorters (e1 e2 : Row) :
  multisort_value (entry :: sorters) e1 e2 =
  if decide (entry_value entry e1 e2 <> 0) then entry_value entry e1 e2
  else multisort_value sorters e1 e2.
Proof.
  unfold multisort_value, first_nonzero. cbn [map]. rewrite filter_cons.
  by destruct (decide (entry_value entry e1 e2 <> 0)).
Qed.

Lemma multisort_value_consistent (sorters : list SorterEntry) :
  Forall (fun entry => consistent (cmp (sorter entry))) sorters ->
  consistent (multisort_value sorters).
Proof.
  induction 1 as [|entry sorters He _ IH].
  - split; intros; rewrite ?multisort_value_nil; lia.
  - apply entry_value_consistent in He.
    pose proof (consistent_lex _ _ He IH) as [Hanti Htrans].
    split; intros; rewrite ?multisort_value_cons in *; eauto.
Qed.

Lemma entry_compare_value (entry : SorterEntry) (e1 e2 : Row) :
  is_Some (JOIN e1) /\ is_Some (JOIN e2) \/ join_key_truthy entry = None ->
  entry_compare entry e1 e2 = Ok (entry_value entry e1 e2).
Proof.
  unfold entry_compare, entry_value, joined_row, row_JOIN.
  intros [[[j1 H1] [j2 H2]]|Hno].
  - rewrite H1, H2. by destruct (join_key_truthy entry).
  - by rewrite Hno.
Qed.

Lemma multisort_value_ok (sorters : list SorterEntry) (e1 e2 : Row) :
  is_Some (JOIN e1) /\ is_Some (JOIN e2) \/
    Forall (fun entry => join_key_truthy entry = None) sorters ->
  multisort sorters e1 e2 = Ok (multisort_value sorters e1 e2).
Proof.
  intros Hok. induction sorters as [|entry sorters IH]; [done|].
  cbn [multisort]. rewrite entry_compare_value.
  - cbn. rewrite multisort_value_cons.
    destruct (decide (entry_value entry e1 e2 <> 0)) as [Hnz|Hz].
    + by rewrite bool_decide_eq_true_2.
    + rewrite bool_decide_eq_false_2 by done. apply IH.
      destruct Hok as [?|Hall]; [by left|right]. by inversion Hall.
  - destruct Hok as [?|Hall]; [by left|right]. by inversion Hall.
Qed.

Lemma sortable_ok (sorters : list SorterEntry) (data : list Row) (a b : Row) :
  sortable sorters data -> a ∈ data -> b ∈ data ->
  multisort sorters a b = Ok (multisort_value sorters a b).
Proof.
  intros [Hjoin|Hno] Ha Hb; apply multisort_value_ok; [left|by right].
  rewrite Forall_forall in Hjoin. split; by apply Hjoin.
Qed.

Lemma first_nonzero_zero (values : list Z) :
  first_nonzero values = 0 <-> Forall (fun c => c = 0) values.
Proof.
  unfold first_nonzero. induction values as [|c values IH]; [done|].
  rewrite filter_cons, Forall_cons. destruct (decide (c <> 0)); cbn; [lia|].
  rewrite IH. intuition lia.
Qed.

Lemma sort_data_nonempty (sorters : list SorterEntry) (data : list Row) :
  sorters <> [] ->
  _sort_data data sorters = list_sort (cmp_to_key_lt (multisort sorters)) data.
Proof. by destruct sorters. Qed.

(** C1.  For sorters with consistent comparisons and rows that can be
    compared without a [KeyError], [_sort_data] returns a permutation of the
    rows that is ordered by [multisort]: of two rows the earlier one never
    compares greater.  [multisort] is the lexicographic combination of the
    entries: each entry yields its comparator's result, negated when the
    entry's flag is set, and the first result that is not zero decides.
    Rows that compare equal, which is when every entry yields zero, keep
    their relative order.  Without sorters the rows are left as they
    are. *)
Theorem sort_data_sorted_stable (sorters : list SorterEntry) (data : list Row)
    (Hcmp : Forall (fun entry => consistent (cmp (sorter entry))) sorters)
    (Hjoin : sortable sorters data) :
  exists sorted,
    _sort_data data sorters = Ok sorted /\
    sorted ≡ₚ data /\
    (forall (i j : nat) (a b : Row),
       (i < j)%nat -> sorted !! i = Some a -> sorted !! j = Some b ->
       exists c, multisort sorters a b = Ok c /\ c <= 0) /\
    (forall a : Row, a ∈ data ->
       filter (fun b => multisort sorters a b = Ok 0) sorted =
       filter (fun b => multisort sorters a b = Ok 0) data) /\
    (forall a b : Row, a ∈ data -> b ∈ data ->
       Forall (fun entry => entry_compare entry a b = Ok (entry_value entry a b)) sorters /\
       multisort sorters a b =
         Ok (first_nonzero (map (fun entry => entry_value entry a b) sorters)) /\
       (multisort sorters a b = Ok 0 <->
        Forall (fun entry => entry_compare entry a b = Ok 0) sorters)) /\
    (sorters = [] -> sorted = data).
Proof.
  pose proof (multisort_value_consistent sorters Hcmp) as Hcons.
  set (c := multisort_value sorters) in *.
  set (ltb := fun x y : Row => bool_decide (c x y < 0)).
  assert (forall a b, a ∈ data -> b ∈ data -> multisort sorters a b = Ok (c a b)) as Hok.
  { intros a b Ha Hb. by apply sortable_ok with data. }
  assert (forall a b : Row, a ∈ data -> b ∈ data ->
       Forall (fun entry => entry_compare entry a b = Ok (entry_value entry a b)) sorters /\
       multisort sorters a b =
         Ok (first_nonzero (map (fun entry => entry_value entry a b) sorters)) /\
       (multisort sorters a b = Ok 0 <->
        Forall (fun entry => entry_compare entry a b = Ok 0) sorters)) as Hlex.
  { intros a b Ha Hb.
    assert (Forall (fun entry => entry_compare entry a b = Ok (entry_value entry a b))
              sorters) as Hentries.
    { destruct Hjoin as [Hj|Hno].
      - rewrite Forall_forall in Hj. apply Forall_forall. intros entry _.
        apply entry_compare_value. left. split; by apply Hj.
      - eapply Forall_impl; [exact Hno|]. intros entry He.
        apply entry_compare_value. by right. }
    split; [exact Hentries|]. split; [by apply Hok|].
    rewrite (Hok a b Ha Hb). subst c. unfold multisort_value.
    split.
    - intros [= Hz]. apply first_nonzero_zero in Hz. rewrite Forall_map in Hz.
      rewrite Forall_forall in Hentries, Hz. apply Forall_forall. intros entry He.
      rewrite (Hentries entry He). f_equal. by apply Hz.
    - intros Hall. f_equal. apply first_nonzero_zero. rewrite Forall_map.
      rewrite Forall_forall in Hentries, Hall. apply Forall_forall. intros entry He.
      specialize (Hall entry He). rewrite (Hentries entry He) in Hall.
      by injection Hall. }
  destruct (decide (sorters = [])) as [Hnil|Hne].
  { exists data. split; [by rewrite Hnil|]. split; [done|].
    split; [|split; [done|split; [exact Hlex|done]]].
    intros i j a b _ _ _. exists 0. rewrite Hnil. split; [done|lia]. }
  set (sorted := sort_loop_by ltb data []).
  assert (sorted ≡ₚ data) as Hperm by apply sort_loop_by_perm.
  assert (StronglySorted (fun x y => c x y <= 0) sorted) as Hsorted.
  { apply (sort_loop_by_sorted c Hcons). constructor. }
  exists sorted. split; [|split; [exact Hperm|split; [|split; [|split; [exact Hlex|]]]]].
  - rewrite sort_data_nonempty by done.
    apply list_sort_pure. intros x y Hx Hy. unfold cmp_to_key_lt.
    by rewrite (Hok x y Hx Hy).
  - intros i j a b Hij Ha Hb. exists (c a b). split.
    + apply Hok; rewrite <- Hperm; by eapply list_elem_of_lookup_2.
    + by apply (StronglySorted_lookup (fun x y => c x y <= 0) sorted i j).
  - intros a Ha.
    rewrite (filter_ext_in (fun b => multisort sorters a b = Ok 0) (fun b => c a b = 0) sorted).
    2:{ intros b Hb. rewrite Hperm in Hb. rewrite (Hok a b Ha Hb).
        split; [by intros [= ->]|by intros ->]. }
    rewrite (filter_ext_in (fun b => multisort sorters a b = Ok 0) (fun b => c a b = 0) data).
    2:{ intros b Hb. rewrite (Hok a b Ha Hb).
        split; [by intros [= ->]|by intros ->]. }
    unfold sorted, ltb. rewrite (sort_loop_by_stable c Hcons a data []) by constructor.
    by rewrite filter_nil.
  - done.
Qed.

Lemma sorter_by_consistent (name : string) : consistent (cmp (sorter_by name)).
Proof. split; cbn; intros; lia. Qed.

Lemma sort_data_sorted_stable_witness :
  exists sorted,
    _sort_data
      [service_row "web01" 2 "CPU"; service_row "db01" 0 "Disk"; service_row "web02" 2 "Mem"]
      [mkSorterEntry (sorter_by "service_state") true None] = Ok sorted /\
    sorted ≡ₚ
      [service_row "web01" 2 "CPU"; service_row "db01" 0 "Disk"; service_row "web02" 2 "Mem"].
Proof.
  destruct (sort_data_sorted_stable
    [mkSorterEntry (sorter_by "service_state") true None]
    [service_row "web01" 2 "CPU"; service_row "db01" 0 "Disk"; service_row "web02" 2 "Mem"])
    as (sorted & Hsort & Hperm & _).
  - repeat constructor; cbn; intros; lia.
  - right. repeat constructor.
  - exists sorted. split; [exact Hsort|exact Hperm].
Defined.

(** Sorting by state, worst first: the two critical services keep their
    order. *)
Example sort_data_by_state :
  _sort_data
    [service_row "web01" 2 "CPU"; service_row "db01" 0 "Disk"; service_row "web02" 2 "Mem"]
    [mkSorterEntry (sorter_by "service_state") true None] =
  Ok [service_row "web01" 2 "CPU"; service_row "web02" 2 "Mem"; service_row "db01" 0 "Disk"].
Proof. vm_compute. reflexivity. Qed.



(** The host without the joined service comes first, then the hosts by
    the state of the service. *)
Example sort_data_by_joined_state :
  _sort_data
    [joined_host "web01" [("CPU", 2)]; joined_host "db01" []; joined_host "web02" [("CPU", 1)]]
    [mkSorterEntry (sorter_by "service_state") false (Some "CPU"%string)] =
  Ok [joined_host "db01" []; joined_host "web02" [("CPU", 1)]; joined_host "web01" [("CPU", 2)]].
Proof. vm_compute. reflexivity. Qed.

(** A row without the ["JOIN"] column cannot be sorted by a join column. *)
Example sort_data_without_join_info :
  _sort_data [service_row "web01" 2 "CPU"; service_row "db01" 0 "Disk"]
    [mkSorterEntry (sorter_by "service_state") false (Some "CPU"%string)] = Raise KeyError.
Proof. vm_compute. reflexivity. Qed.

(** C1, as stated for every list of rows and every non-empty list of
    sorter entries, fails.  A sorter entry with a join key reads
    [e1["JOIN"]], so rows without join information, as [show_view] passes
    them when the view has no join cells, make [_sort_data] raise
    [KeyError] and nothing is ordered.  And a comparator that is not a
    consistent comparison, here one that calls every row greater than
    every other, leaves the first of two rows before the second although
    the entries compare it greater. *)
Theorem sort_data_not_ordered :
  (let data := [service_row "web01" 2 "CPU"; service_row "db01" 0 "Disk"] in
   let sorters := [mkSorterEntry (sorter_by "service_state") false (Some "CPU"%string)] in
   sorters <> [] /\ _sort_data data sorters = Raise KeyError /\
   forall sorted, _sort_data data sorters <> Ok sorted) /\
  (let a := service_row "web01" 2 "CPU" in
   let b := service_row "db01" 0 "Disk" in
   let sorters := [mkSorterEntry (mkSorter (fun _ _ => 1) [] false) false None] in
   sorters <> [] /\ _sort_data [a; b] sorters = Ok [a; b] /\
   multisort sorters a b = Ok 1).
Proof.
  split; cbn zeta.
  - split; [discriminate|].
    assert (_sort_data [service_row "web01" 2 "CPU"; service_row "db01" 0 "Disk"]
              [mkSorterEntry (sorter_by "service_state") false (Some "CPU"%string)] =
            Raise KeyError) as H by (vm_compute; reflexivity).
    split; [exact H|]. intros sorted. rewrite H. discriminate.
  - split; [discriminate|]. split; vm_compute; reflexivity.
Qed.

End SortFacts.

(** ** The data pipeline of [show_view] *)

Section ShowViewFacts.
Import Py Views Specs Samples.

Lemma sort_data_perm (data sorted : list Row) (sorters : list SorterEntry) :
  _sort_data data sorters = Ok sorted -> sorted ≡ₚ data.
Proof.
  destruct sorters as [|entry sorters]; cbn [_sort_data].
  - by intros [= <-].
  - intros Hsort. by apply sort_loop_perm in Hsort.
Qed.

Lemma sort_data_empty (sorters : list SorterEntry) : _sort_data [] sorters = Ok [].
Proof. by destruct sorters. Qed.

(** Whatever is fetched, the rows that leave the fetching step went
    through [_sort_data] last. *)
Lemma fetch_and_sort_sorted (env : Env) (view : View) (only_count : bool)
    (all_active_filters : list Filter) (filterheaders headers : string)
    (sorters : list SorterEntry) (columns : list string) (sorted : list Row) :
  fetch_and_sort env view only_count all_active_filters filterheaders headers
    sorters columns = Ok sorted ->
  exists fetched, _sort_data fetched sorters = Ok sorted /\ length fetched = length sorted.
Proof.
  unfold fetch_and_sort.
  destruct (only_count || negb (mustsearch (spec view)) || bool_decide _).
  - destruct (table_query _ _ _ _ _) as [rows|e]; cbn; [|discriminate].
    destruct (match join_cells view with [] => _ | _ => _ end) as [rows'|e]; cbn;
      [|discriminate].
    intros Hsort. eexists. split; [exact Hsort|].
    apply sort_data_perm in Hsort. by rewrite Hsort.
  - intros [= <-]. exists []. split; [apply sort_data_empty|done].
Qed.

(** C5.  In [show_view] the [filter_table] functions of the active filters
    are applied to the rows as [_sort_data] left them.  The count handed to
    the renderer as the unfiltered amount is the number of these rows, taken
    before the filters are applied, while the count returned in the
    [only_count] mode is the number of rows the filters leave. *)
Theorem show_view_filters_after_sorting (env : Env) (view : View) (only_count : bool)
    (all_active_filters : list Filter) (outcome : Outcome)
    (Hshow : show_view env view only_count all_active_filters = Ok outcome) :
  exists filterheaders user_errors,
    get_livestatus_filter_headers (ident (datasource view)) all_active_filters =
      Ok (filterheaders, user_errors) /\
    (outcome = AvailabilityPage filterheaders \/
     exists (columns : list string) (fetched sorted : list Row),
       let sorters := if only_count then [] else sorters view in
       let filtered := apply_filter_tables all_active_filters sorted in
       fetch_and_sort env view only_count all_active_filters filterheaders
         (query_headers view filterheaders) sorters columns = Ok sorted /\
       _sort_data fetched sorters = Ok sorted /\
       length fetched = length sorted /\
       match outcome with
       | AvailabilityPage _ => False
       | BIAvailability rows => rows = filtered
       | Count n => only_count = true /\ n = length filtered
       | CsvExport _ rows => only_count = false /\ rows = filtered
       | Rendered rows _ unfiltered_amount_of_rows =>
           only_count = false /\ rows = filtered /\
           unfiltered_amount_of_rows = length sorted
       end /\
       (only_count = true -> mode_is_availability env = false ->
        outcome = Count (length filtered))).
Proof.
  unfold show_view in Hshow.
  destruct (get_livestatus_filter_headers _ _) as [[filterheaders user_errors]|e];
    [|discriminate].
  cbn in Hshow. exists filterheaders, user_errors. split; [done|].
  destruct (mode_is_availability env && _) eqn:Hfork.
  { left. by injection Hshow as <-. }
  right.
  destruct (fetch_and_sort _ _ _ _ _ _ _ _) as [sorted|e] eqn:Hfetch; [|discriminate].
  cbn in Hshow.
  destruct (fetch_and_sort_sorted _ _ _ _ _ _ _ _ _ Hfetch) as (fetched & Hsort & Hlen).
  eexists _, fetched, sorted. cbn zeta.
  split; [exact Hfetch|]. split; [exact Hsort|]. split; [exact Hlen|].
  destruct (mode_is_availability env).
  { injection Hshow as <-. split; [done|]. intros _ [=]. }
  destruct only_count.
  { injection Hshow as <-. split; [done|]. done. }
  destruct (match layout (spec view) with Some _ => _ | None => _ end) as [lay|e];
    [|discriminate].
  cbn in Hshow.
  destruct (negb (bool_decide (output_format env = "html"%string))).
  - destruct lay as [l|].
    + destruct (has_individual_csv_export l).
      * injection Hshow as <-. split; [done|]. intros [=].
      * destruct (layout_registry env !! output_format env); [|discriminate].
        injection Hshow as <-. split; [done|]. intros [=].
    + destruct (layout_registry env !! output_format env); [|discriminate].
      injection Hshow as <-. split; [done|]. intros [=].
  - injection Hshow as <-. split; [done|]. intros [=].
Qed.

Lemma show_view_filters_after_sorting_witness :
  exists fetched sorted : list Row,
    _sort_data fetched (sorters services_view) = Ok sorted /\
    length fetched = length sorted /\
    [service_row "web01" 2 "CPU"; service_row "web02" 1 "Mem"] =
      apply_filter_tables [problems_only] sorted /\
    3%nat = length sorted.
Proof.
  destruct (show_view_filters_after_sorting (plain_env ∅) services_view false
              [problems_only]
              (Rendered [service_row "web01" 2 "CPU"; service_row "web02" 1 "Mem"] None 3))
    as (fh & errs & _ & [Habs|(cols & fetched & sorted & _ & Hsort & Hlen & Hout & _)]).
  - vm_compute. reflexivity.
  - discriminate Habs.
  - destruct Hout as (_ & Hrows & Hn). exists fetched, sorted. by rewrite Hrows, Hn.
Defined.

Example show_view_only_count :
  show_view (plain_env ∅) services_view true [problems_only] = Ok (Count 2).
Proof. vm_compute. reflexivity. Qed.

Example show_view_only_count_availability :
  show_view (plain_env {[ "mode"%string := "availability"%string ]})
    (mkView (spec services_view)
       (mkDataSource "aggr" ["aggr"]%string None "" [] [] false three_services)
       [] [] [] None None)
    true [problems_only] =
  Ok (BIAvailability [service_row "web01" 2 "CPU"; service_row "web02" 1 "Mem"]).
Proof. vm_compute. reflexivity. Qed.

End ShowViewFacts.

(** ** Joining the rows of a slave table *)

Section JoinFacts.
Import Py Views Specs Samples.

Variables join_master_column join_slave_column : string.

#[local] Abbreviation mkey := (master_key join_master_column).

Lemma master_key_Some (row : Row) (site master : Value) :
  mkey row = Some (site, master) ->
  row_item row "site" = Ok site /\ row_item row join_master_column = Ok master.
Proof.
  unfold master_key, row_item.
  destruct (columns row !! "site"%string) as [v1|]; cbn; [|done].
  destruct (columns row !! join_master_column) as [v2|]; cbn; [|done].
  by intros [= -> ->].
Qed.

Lemma join_inv_initial : join_inv join_master_column join_slave_column [] join_state0.
Proof.
  unfold join_inv, join_state0. cbn.
  repeat split; try done; intros *; try rewrite lookup_empty; try done.
  by intros ?%elem_of_nil.
Qed.

(** In a grouped list, a key that differs from the key of the last row
    has not occurred. *)
Lemma grouped_new_key (done : list Row) (r : Row) (k : Value * Value) :
  grouped (map mkey (done ++ [r])) ->
  mkey r = Some k ->
  (last done ≫= mkey) <> Some k ->
  Some k ∉ map mkey done.
Proof.
  intros Hg Hr Hlast Hin.
  apply list_elem_of_lookup in Hin as [i Hi].
  pose proof (lookup_lt_Some _ _ _ Hi) as Hlen. rewrite length_map in Hlen.
  destruct (decide (i = pred (length done))) as [->|Hne].
  - apply Hlast. rewrite last_lookup. rewrite list_lookup_fmap in Hi.
    destruct (done !! pred (length done)) as [r'|]; cbn in *; [|done].
    by injection Hi.
  - apply Hlast. rewrite last_lookup.
    assert (map mkey (done ++ [r]) !! pred (length done) = Some (Some k)) as Hm.
    { apply (Hg i (length done) (pred (length done))); [lia| |].
      - rewrite map_app, lookup_app_l by (rewrite length_map; lia). done.
      - rewrite map_app, lookup_app_r by (rewrite length_map; lia).
        rewrite length_map, Nat.sub_diag. cbn. by rewrite Hr. }
    rewrite map_app, lookup_app_l in Hm by (rewrite length_map; lia).
    rewrite list_lookup_fmap in Hm.
    destruct (done !! pred (length done)) as [r'|]; cbn in *; [|done].
    by injection Hm.
Qed.

Lemma last_mkey_elem (done : list Row) (k : Value * Value) :
  (last done ≫= mkey) = Some k -> Some k ∈ map mkey done.
Proof.
  destruct (last done) as [r'|] eqn:Hlast; cbn; [|done].
  intros Hk. rewrite <- Hk. apply list_elem_of_fmap_2.
  rewrite last_lookup in Hlast. by eapply list_elem_of_lookup_2.
Qed.

Lemma last_snoc_mkey (done : list Row) (r : Row) :
  (last (done ++ [r]) ≫= mkey) = mkey r.
Proof. by rewrite last_snoc. Qed.

Lemma elem_of_map_snoc (done : list Row) (r : Row) (k : option (Value * Value)) :
  k ∈ map mkey (done ++ [r]) <-> k ∈ map mkey done \/ k = mkey r.
Proof.
  rewrite map_app, elem_of_app. cbn. rewrite list_elem_of_singleton. done.
Qed.

(** One round of the first loop keeps what has been built. *)
Lemma join_collect_step (done : list Row) (r : Row) (st : JoinState)
    (k : Value * Value) (s : Value) :
  join_inv join_master_column join_slave_column done st ->
  mkey r = Some k -> columns r !! join_slave_column = Some s ->
  grouped (map mkey (done ++ [r])) ->
  distinct_slaves join_master_column join_slave_column (done ++ [r]) ->
  exists st1,
    (forall rest,
       join_collect join_master_column join_slave_column (r :: rest) st =
       join_collect join_master_column join_slave_column rest st1) /\
    join_inv join_master_column join_slave_column (done ++ [r]) st1.
Proof.
  intros (Hcur & Hent & Hdom & Htot & Hdict & Hinj) Hk Hs Hg Hd.
  destruct k as [site master].
  destruct (master_key_Some r site master Hk) as [Hsite Hmaster].
  assert (row_item r join_slave_column = Ok s) as Hslave
    by (unfold row_item; by rewrite Hs).
  destruct (decide (Some (site, master) = current_key st)) as [Heq|Hne].
  - (* the row continues the current group *)
    assert (Some (site, master) ∈ map mkey done) as Hin.
    { apply last_mkey_elem. by rewrite <- Hcur. }
    destruct (Htot _ Hin) as [a Ha].
    assert (current_entry st = Some a) as Hcurent.
    { rewrite Hent, <- Heq. cbn. exact Ha. }
    exists (mkJoinState (per_master_entry st) (current_key st) (current_entry st)
              (alter (fun d => <[s := r]> d) a (dicts st))).
    split.
    + intros rest. cbn [join_collect]. rewrite Hsite, Hmaster. cbn.
      rewrite bool_decide_eq_false_2 by (intros Hx; by apply Hx).
      rewrite Hcurent, Hslave. reflexivity.
    + unfold join_inv. cbn [per_master_entry current_key current_entry dicts].
      split; [by rewrite last_snoc_mkey, Hk|]. split; [exact Hent|].
      split; [|split; [|split; [|exact Hinj]]].
      * intros k' a' Hk'. destruct (Hdom k' a' Hk') as [Hlt Hin'].
        rewrite length_alter. split; [exact Hlt|].
        apply elem_of_map_snoc. by left.
      * intros k' Hk'. apply elem_of_map_snoc in Hk' as [Hk'|Hk']; [by apply Htot|].
        rewrite Hk in Hk'. injection Hk' as ->. by eexists.
      * intros k' a' d' Hk' Hd' s' r'.
        destruct (decide (a' = a)) as [->|Hna].
        -- assert (k' = (site, master)) as -> by (by eapply Hinj).
           destruct (Hdom _ _ Ha) as [Hlt _].
           destruct (lookup_lt_is_Some_2 (dicts st) a Hlt) as [d Hdd].
           rewrite list_lookup_alter_eq, Hdd in Hd'. injection Hd' as <-.
           specialize (Hdict _ _ _ Ha Hdd).
           rewrite elem_of_app, list_elem_of_singleton.
           destruct (decide (s' = s)) as [->|Hns].
           ++ rewrite lookup_insert_eq. split.
              ** intros [= <-]. auto.
              ** intros ([Hr' | ->] & Hkr' & Hsr'); [|done].
                 apply list_elem_of_lookup in Hr' as [i Hi].
                 pose proof (lookup_lt_Some _ _ _ Hi) as Hilen.
                 assert (i = length done); [|lia].
                 apply (Hd i (length done) r' r).
                 --- by rewrite lookup_app_l.
                 --- by rewrite lookup_app_r, Nat.sub_diag by lia.
                 --- by rewrite Hkr', Hk.
                 --- by rewrite Hsr', Hs.
           ++ rewrite lookup_insert_ne by done. rewrite Hdict. split.
              ** intros (? & ? & ?). auto.
              ** intros ([Hr' | ->] & Hkr' & Hsr'); [done|].
                 rewrite Hs in Hsr'. by injection Hsr'.
        -- rewrite list_lookup_alter_ne in Hd' by done.
           specialize (Hdict _ _ _ Hk' Hd'). rewrite Hdict.
           rewrite elem_of_app, list_elem_of_singleton. split.
           ++ intros (? & ? & ?). auto.
           ++ intros ([Hr' | ->] & Hkr' & Hsr'); [done|].
              exfalso. apply Hna. rewrite Hk in Hkr'.
              injection Hkr' as <-. rewrite Ha in Hk'. by injection Hk'.
  - (* the row opens a new group *)
    assert (Some (site, master) ∉ map mkey done) as Hnew.
    { apply (grouped_new_key done r); [done|done|]. by rewrite <- Hcur. }
    assert (per_master_entry st !! (site, master) = None) as Hfresh.
    { destruct (per_master_entry st !! (site, master)) as [a|] eqn:Ha; [|done].
      by destruct (Hdom _ _ Ha) as [_ ?]. }
    set (a := length (dicts st)).
    exists (mkJoinState (<[(site, master) := a]> (per_master_entry st))
              (Some (site, master)) (Some a) (dicts st ++ [ {[ s := r ]} ])).
    split.
    + intros rest. cbn [join_collect]. rewrite Hsite, Hmaster. cbn.
      rewrite bool_decide_eq_true_2 by done. cbn. rewrite Hslave. cbn.
      do 2 f_equal. fold a.
      rewrite alter_app_r_alt, Nat.sub_diag by (unfold a; lia). cbn.
      by rewrite insert_empty.
    + unfold join_inv. cbn [per_master_entry current_key current_entry dicts].
      split; [by rewrite last_snoc_mkey, Hk|]. split; [cbn; by rewrite lookup_insert_eq|].
      split; [|split; [|split]].
      * intros k' a' Hk'. rewrite length_app. cbn. rewrite elem_of_map_snoc.
        destruct (decide (k' = (site, master))) as [->|Hnk].
        -- rewrite lookup_insert_eq in Hk'. injection Hk' as <-.
           rewrite Hk. split; [unfold a; lia|by right].
        -- rewrite lookup_insert_ne in Hk' by done.
           destruct (Hdom _ _ Hk'). split; [lia|by left].
      * intros k' Hk'. apply elem_of_map_snoc in Hk' as [Hk'|Hk'].
        -- destruct (decide (k' = (site, master))) as [->|Hnk]; [done|].
           rewrite lookup_insert_ne by done. by apply Htot.
        -- rewrite Hk in Hk'. injection Hk' as ->. rewrite lookup_insert_eq. by eexists.
      * intros k' a' d' Hk' Hd' s' r'.
        rewrite elem_of_app, list_elem_of_singleton.
        destruct (decide (k' = (site, master))) as [->|Hnk].
        -- rewrite lookup_insert_eq in Hk'. injection Hk' as <-.
           rewrite lookup_app_r, Nat.sub_diag in Hd' by (unfold a; lia).
           injection Hd' as <-. rewrite lookup_singleton_Some. split.
           ++ intros [<- <-]. auto.
           ++ intros ([Hr' | ->] & Hkr' & Hsr').
              ** exfalso. apply Hnew. rewrite <- Hkr'.
                 by apply list_elem_of_fmap_2.
              ** rewrite Hs in Hsr'. by injection Hsr' as <-.
        -- rewrite lookup_insert_ne in Hk' by done.
           destruct (Hdom _ _ Hk') as [Hlt _].
           rewrite lookup_app_l in Hd' by done.
           specialize (Hdict _ _ _ Hk' Hd'). rewrite Hdict. split.
           ++ intros (? & ? & ?). auto.
           ++ intros ([Hr' | ->] & Hkr' & Hsr'); [done|].
              rewrite Hk in Hkr'. by injection Hkr' as <-.
      * intros k1 k2 a' Hk1 Hk2.
        destruct (decide (k1 = (site, master))) as [->|Hn1],
                 (decide (k2 = (site, master))) as [->|Hn2]; [done| | |].
        -- rewrite lookup_insert_eq in Hk1. injection Hk1 as <-.
           rewrite lookup_insert_ne in Hk2 by done.
           destruct (Hdom _ _ Hk2). unfold a in *. lia.
        -- rewrite lookup_insert_eq in Hk2. injection Hk2 as <-.
           rewrite lookup_insert_ne in Hk1 by done.
           destruct (Hdom _ _ Hk1). unfold a in *. lia.
        -- rewrite lookup_insert_ne in Hk1, Hk2 by done. by eapply Hinj.
Qed.

Lemma grouped_prefix {K} (l1 l2 : list K) : grouped (l1 ++ l2) -> grouped l1.
Proof.
  intros Hg i j m k Hm Hi Hj.
  pose proof (lookup_lt_Some _ _ _ Hj) as Hlen.
  specialize (Hg i j m k Hm).
  rewrite !lookup_app_l in Hg by lia. by apply Hg.
Qed.

Lemma distinct_slaves_prefix (l1 l2 : list Row) :
  distinct_slaves join_master_column join_slave_column (l1 ++ l2) ->
  distinct_slaves join_master_column join_slave_column l1.
Proof.
  intros Hd i j r1 r2 Hi Hj. apply Hd.
  - rewrite lookup_app_l; [done|]. by eapply lookup_lt_Some.
  - rewrite lookup_app_l; [done|]. by eapply lookup_lt_Some.
Qed.

(** The first loop returns, and has collected the slave rows by key. *)
Lemma join_collect_inv (rest done : list Row) (st : JoinState) :
  join_inv join_master_column join_slave_column done st ->
  Forall (fun r => is_Some (mkey r) /\ is_Some (columns r !! join_slave_column)) rest ->
  grouped (map mkey (done ++ rest)) ->
  distinct_slaves join_master_column join_slave_column (done ++ rest) ->
  exists st',
    join_collect join_master_column join_slave_column rest st = Ok st' /\
    join_inv join_master_column join_slave_column (done ++ rest) st'.
Proof.
  revert done st. induction rest as [|r rest IH]; intros done st Hinv Hcols Hg Hd.
  - exists st. by rewrite app_nil_r.
  - apply Forall_cons in Hcols as [[[k Hk] [sl Hs]] Hcols].
    rewrite cons_middle, app_assoc in Hg, Hd |- *.
    destruct (join_collect_step done r st k sl Hinv Hk Hs) as (st1 & Hstep & Hinv1).
    { pose proof Hg as Hg'. rewrite map_app in Hg'. by apply grouped_prefix in Hg'. }
    { by apply distinct_slaves_prefix in Hd. }
    rewrite Hstep. by apply IH.
Qed.

(** The second loop gives every master row the dict of its key. *)
Lemma join_attach_spec (slave_rows master_rows : list Row) (st : JoinState) :
  join_inv join_master_column join_slave_column slave_rows st ->
  Forall (fun m => is_Some (mkey m)) master_rows ->
  exists joined,
    join_attach join_master_column st master_rows = Ok joined /\
    Forall2 (fun m m' =>
               columns m' = columns m /\
               exists J, JOIN m' = Some J /\
                 forall (s : Value) (r : Row),
                   J !! s = Some r <->
                   r ∈ slave_rows /\ mkey r = mkey m /\
                   columns r !! join_slave_column = Some s)
            master_rows joined.
Proof.
  intros (_ & _ & Hdom & Htot & Hdict & _).
  induction 1 as [|m master_rows [[site master] Hm] _ (joined & Hjoined & Hall)].
  - exists []. split; [done|constructor].
  - destruct (master_key_Some m site master Hm) as [Hsite Hmaster].
    eexists. cbn [join_attach]. rewrite Hsite, Hmaster. cbn. rewrite Hjoined. cbn.
    split; [reflexivity|]. constructor; [|exact Hall].
    split; [done|]. eexists. split; [reflexivity|]. intros s r. rewrite Hm.
    destruct (per_master_entry st !! (site, master)) as [a|] eqn:Ha.
    + destruct (Hdom _ _ Ha) as [Hlt _].
      destruct (lookup_lt_is_Some_2 (dicts st) a Hlt) as [d Hd].
      rewrite Hd. cbn. by apply Hdict with a.
    + rewrite lookup_empty. split; [done|]. intros (Hr & Hk & _).
      assert (is_Some (per_master_entry st !! (site, master))) as [a' Ha'].
      { apply Htot. rewrite <- Hk. by apply list_elem_of_fmap_2. }
      congruence.
Qed.

End JoinFacts.

Section JoinTheorems.
Import Py Views Specs Samples.

(** C2, as amended.  When the join query returns the slave rows of every
    master key next to each other and with distinct join keys, every master
    row gets a ["JOIN"] entry that maps exactly the join keys of the slave
    rows with its site and join master column value to those rows; it is
    empty when there are none. *)
Theorem do_table_join_grouped (registry : gmap string DataSource) (view : View)
    (master_rows : list Row) (master_filters : string) (sorters : list SorterEntry)
    (join_table join_master_column : string) (slave_ds : DataSource)
    (slave_rows : list Row)
    (Hjoin : join (datasource view) = Some (join_table, join_master_column))
    (Hslave : registry !! join_table = Some slave_ds)
    (Hquery : join_query view slave_ds join_master_column master_filters sorters =
              Ok slave_rows)
    (Hslave_cols : Forall (fun r => is_Some (master_key join_master_column r) /\
                                    is_Some (columns r !! ds_join_key slave_ds)) slave_rows)
    (Hmaster_cols : Forall (fun m => is_Some (master_key join_master_column m)) master_rows)
    (Hgrouped : grouped (map (master_key join_master_column) slave_rows))
    (Hdistinct : distinct_slaves join_master_column (ds_join_key slave_ds) slave_rows) :
  exists joined,
    _do_table_join registry view master_rows master_filters sorters = Ok joined /\
    Forall2 (fun m m' =>
               columns m' = columns m /\
               exists J, JOIN m' = Some J /\
                 forall (s : Value) (r : Row),
                   J !! s = Some r <->
                   r ∈ slave_rows /\
                   master_key join_master_column r = master_key join_master_column m /\
                   columns r !! ds_join_key slave_ds = Some s)
            master_rows joined /\
    Forall (join_maps_all_slaves join_master_column (ds_join_key slave_ds) slave_rows)
      joined.
Proof.
  destruct (join_collect_inv join_master_column (ds_join_key slave_ds) slave_rows []
              join_state0) as (st & Hcollect & Hinv); try done.
  { apply join_inv_initial. }
  destruct (join_attach_spec join_master_column (ds_join_key slave_ds) slave_rows
              master_rows st Hinv Hmaster_cols) as (joined & Hattach & Hall).
  exists joined. split; [|split; [exact Hall|]].
  - unfold _do_table_join. rewrite Hjoin, Hslave. cbn. rewrite Hquery. cbn.
    rewrite Hcollect. cbn. exact Hattach.
  - clear Hattach. induction Hall as [|m m' ms ms' (Hcols & J & HJ & Hmap) _ IH];
      constructor; [|by apply IH; inversion Hmaster_cols].
    assert (master_key join_master_column m' = master_key join_master_column m) as Hkey
      by (unfold master_key; by rewrite Hcols).
    exists J. split; [exact HJ|]. split.
    + intros r s Hr Hk Hs. apply Hmap. by rewrite <- Hkey.
    + intros Hnone. apply map_eq. intros s. rewrite lookup_empty.
      destruct (J !! s) as [r|] eqn:Hr; [|done].
      apply Hmap in Hr as (Hin & Hk & _). destruct (Hnone r Hin). by rewrite Hkey.
Qed.

Lemma do_table_join_grouped_witness :
  exists joined,
    _do_table_join
      {[ "services"%string :=
           services_table [service_row "web01" 2 "CPU"; service_row "web01" 0 "Mem";
                           service_row "db01" 1 "CPU"] ]}
      joined_hosts_view [host_row "siteA" "web01"; host_row "siteA" "mail01"] "" [] =
      Ok joined /\
    Forall (join_maps_all_slaves "host_name" "service_description"
              [service_row "web01" 2 "CPU"; service_row "web01" 0 "Mem";
               service_row "db01" 1 "CPU"]) joined.
Proof.
  destruct (do_table_join_grouped
    {[ "services"%string :=
         services_table [service_row "web01" 2 "CPU"; service_row "web01" 0 "Mem";
                         service_row "db01" 1 "CPU"] ]}
    joined_hosts_view [host_row "siteA" "web01"; host_row "siteA" "mail01"] "" []
    "services" "host_name"
    (services_table [service_row "web01" 2 "CPU"; service_row "web01" 0 "Mem";
                     service_row "db01" 1 "CPU"])
    [service_row "web01" 2 "CPU"; service_row "web01" 0 "Mem"; service_row "db01" 1 "CPU"])
    as (joined & Hjoined & _ & Hall).
  - reflexivity.
  - reflexivity.
  - reflexivity.
  - repeat constructor; by eexists.
  - repeat constructor; by eexists.
  - intros i j m k Hm Hi Hj.
    destruct i as [|[|[|i]]], j as [|[|[|j]]], m as [|[|[|m]]];
      vm_compute in Hi, Hj |- *; first [lia | congruence].
  - intros i j r1 r2 Hi Hj Hk Hs.
    destruct i as [|[|[|i]]], j as [|[|[|j]]]; cbn in Hi, Hj; try done;
      injection Hi as <-; injection Hj as <-; vm_compute in Hk, Hs; congruence.
  - exists joined. split; [exact Hjoined|exact Hall].
Defined.

(** C2, as stated, fails when the rows of a host are not adjacent in the
    answer of the join query: the second group of [web01] replaces the first
    one, and the service [CPU] is lost. *)
Lemma do_table_join_loses_split_group :
  exists joined,
    _do_table_join
      {[ "services"%string :=
           services_table [service_row "web01" 2 "CPU"; service_row "db01" 1 "CPU";
                           service_row "web01" 0 "Mem"] ]}
      joined_hosts_view [host_row "siteA" "web01"] "" [] = Ok joined /\
    ~ Forall (join_maps_all_slaves "host_name" "service_description"
                [service_row "web01" 2 "CPU"; service_row "db01" 1 "CPU";
                 service_row "web01" 0 "Mem"]) joined.
Proof.
  eexists. split; [vm_compute; reflexivity|].
  intros Hall. apply Forall_cons in Hall as [(J & HJ & Hmap & _) _].
  injection HJ as <-.
  specialize (Hmap (service_row "web01" 2 "CPU") (VStr "CPU")).
  assert (service_row "web01" 2 "CPU" ∈
          [service_row "web01" 2 "CPU"; service_row "db01" 1 "CPU";
           service_row "web01" 0 "Mem"]) as Hin by apply list_elem_of_here.
  specialize (Hmap Hin eq_refl eq_refl). vm_compute in Hmap. discriminate Hmap.
Qed.

End JoinTheorems.
